(** * Sparkify data lake: the Spark job [etl.py] and its launcher [run.py]

    A shallow embedding of the two scripts.  A DataFrame is the list of its
    partitions, each a list of typed rows whose nullable columns are
    [option]s; the output directory is a finite map from table names to the
    rows persisted there; a job runs in a small state-and-exception monad
    over that store, the log, and the faults the engine is going to meet. *)

From Stdlib Require Import ZArith QArith String Ascii List Lia.
From stdpp Require Import base tactics option list numbers strings pretty sorting gmap.

Open Scope string_scope.
Open Scope list_scope.
Open Scope Z_scope.

(** ** Jobs: state and exceptions *)

Inductive result (E A : Type) :=
  | Ok (a : A)
  | Raise (e : E).
Arguments Ok {E A} a.
Arguments Raise {E A} e.

(** A job over a world [W] that may raise an exception of [E]; what it did
    before raising stays done. *)
Definition M (W E A : Type) : Type := W → result E A * W.

Definition ret {W E A} (a : A) : M W E A := λ w, (Ok a, w).

Definition raise {W E A} (e : E) : M W E A := λ w, (Raise e, w).

Definition bind {W E A B} (m : M W E A) (k : A → M W E B) : M W E B :=
  λ w, match m w with
       | (Ok a, w') => k a w'
       | (Raise e, w') => (Raise e, w')
       end.

(** [try: body except ...: handler(e)], for the exceptions [catches] holds of. *)
Definition try_except {W E A} (catches : E → bool) (body : M W E A)
  (handler : E → M W E A) : M W E A :=
  λ w, match body w with
       | (Ok a, w') => (Ok a, w')
       | (Raise e, w') => if catches e then handler e w' else (Raise e, w')
       end.

(** [for x in xs: body(x)]. *)
Fixpoint for_each {W E A} (xs : list A) (body : A → M W E unit) : M W E unit :=
  match xs with
  | [] => ret ()
  | x :: rest => bind (body x) (λ _, for_each rest body)
  end.

#[global] Instance M_ret {W E} : MRet (M W E) := @ret W E.
#[global] Instance M_bind {W E} : MBind (M W E) := λ A B k m, bind m k.

(** ** etl.py *)

Module Etl.

(** *** Numbers in text *)

Definition is_digit (c : ascii) : bool :=
  (48 <=? nat_of_ascii c)%nat && (nat_of_ascii c <=? 57)%nat.

(** The value of a run of decimal digits, the most significant first. *)
Definition digits_value (ds : list ascii) : Z :=
  foldl (λ n c, 10 * n + (Z.of_nat (nat_of_ascii c) - 48)) 0 ds.

(** The digits a text starts with, and what follows them. *)
Fixpoint leading_digits (s : list ascii) : list ascii * list ascii :=
  match s with
  | c :: rest =>
      if is_digit c
      then let '(ds, tl) := leading_digits rest in (c :: ds, tl)
      else ([], s)
  | [] => ([], [])
  end.

(** [String.trim]: the characters up to the space are dropped at both ends. *)
Definition is_blank (c : ascii) : bool := (nat_of_ascii c <=? 32)%nat.

Fixpoint drop_blanks (s : list ascii) : list ascii :=
  match s with
  | c :: rest => if is_blank c then drop_blanks rest else s
  | [] => []
  end.

Definition trim (s : list ascii) : list ascii :=
  reverse (drop_blanks (reverse (drop_blanks s))).

Definition sign_of (s : list ascii) : Z * list ascii :=
  match s with
  | "-"%char :: rest => (-1, rest)
  | "+"%char :: rest => (1, rest)
  | _ => (1, s)
  end.

(** [m * 10 ^ k]. *)
Definition scale (m k : Z) : Q :=
  if 0 <=? k then inject_Z (m * 10 ^ k) else m # Z.to_pos (10 ^ (- k)).

(** The exponent part of a number, when there is one, and what follows. *)
Definition exponent_of (s : list ascii) : option (Z * list ascii) :=
  match s with
  | c :: rest =>
      if bool_decide (c = "e"%char ∨ c = "E"%char)
      then let '(sign, s1) := sign_of rest in
           let '(ds, s2) := leading_digits s1 in
           if bool_decide (ds = []) then None else Some (sign * digits_value ds, s2)
      else Some (0, s)
  | [] => Some (0, [])
  end.

(** The cast of a text to a number ([java.lang.Double.parseDouble]) on the
    decimal spellings: blanks around, a sign, digits with or without a
    fraction, an exponent, a type suffix.  The value is kept exact, where
    the engine rounds it to a double; the hexadecimal spellings, NaN and
    Infinity are taken as null. *)
Definition parse_double (text : string) : option Q :=
  let '(sign, s0) := sign_of (trim (list_ascii_of_string text)) in
  let '(whole, s1) := leading_digits s0 in
  let '(fraction, s2) :=
    match s1 with
    | "."%char :: rest => leading_digits rest
    | _ => ([], s1)
    end in
  if bool_decide (whole ++ fraction = []) then None else
  '(e, s3) ← exponent_of s2;
  let value := scale (sign * digits_value (whole ++ fraction))
                     (e - Z.of_nat (length fraction)) in
  match s3 with
  | [] => Some value
  | [c] => if bool_decide (c ∈ ["f"; "F"; "d"; "D"]%char) then Some value else None
  | _ => None
  end.

(** *** Calendar (session time zone UTC, proleptic Gregorian) *)

Definition seconds_per_day : Z := 86400.

(** Civil date [(year, month, day)] of a day count since 1970-01-01. *)
Definition civil_from_days (days : Z) : Z * Z * Z :=
  let z := days + 719468 in
  let era := z / 146097 in
  let doe := z - era * 146097 in
  let yoe := (doe - doe / 1460 + doe / 36524 - doe / 146096) / 365 in
  let doy := doe - (365 * yoe + yoe / 4 - yoe / 100) in
  let mp := (5 * doy + 2) / 153 in
  let d := doy - (153 * mp + 2) / 5 + 1 in
  let m := if mp <? 10 then mp + 3 else mp - 9 in
  let y := yoe + era * 400 in
  (if m <=? 2 then y + 1 else y, m, d).

(** Day count since 1970-01-01 of the civil date [y-m-d]. *)
Definition days_from_civil (y m d : Z) : Z :=
  let y' := if m <=? 2 then y - 1 else y in
  let era := y' / 400 in
  let yoe := y' - era * 400 in
  let mp := if m <=? 2 then m + 9 else m - 3 in
  let doy := (153 * mp + 2) / 5 + d - 1 in
  let doe := yoe * 365 + yoe / 4 - yoe / 100 + doy in
  era * 146097 + doe - 719468.

Definition digit (n : Z) : ascii := ascii_of_nat (48 + Z.to_nat (n mod 10)).

Definition pad2 (n : Z) : string :=
  String (digit (n / 10)) (String (digit n) "").

Definition pad4 (n : Z) : string :=
  String (digit (n / 1000)) (String (digit (n / 100)) (pad2 n)).

(** [F.from_unixtime(seconds)]: the text [yyyy-MM-dd HH:mm:ss] of a whole
    epoch second (years 1583 to 9999). *)
Definition from_unixtime (seconds : Z) : string :=
  let '(y, m, d) := civil_from_days (seconds / seconds_per_day) in
  let sod := seconds mod seconds_per_day in
  pad4 y +:+ "-" +:+ pad2 m +:+ "-" +:+ pad2 d +:+ " " +:+
  pad2 (sod / 3600) +:+ ":" +:+ pad2 (sod mod 3600 / 60) +:+ ":" +:+ pad2 (sod mod 60).

(** A timestamp is a count of microseconds since the epoch (TimestampType). *)
Definition micros_per_second : Z := 1000000.

(** *** The parser of timestamps

    [F.to_timestamp(text, format)] on the release [run.py] asks for
    (emr-5.30.0: Spark 2.4.5), which parses with a [java.text.SimpleDateFormat]
    of the pattern, locale US, not lenient, in the session time zone. *)

(** A number, then the delimiter that has to follow it, when one has to. *)
Definition number_then (delimiter : option ascii) (s : list ascii)
  : option (Z * list ascii) :=
  let '(ds, rest) := leading_digits s in
  if bool_decide (ds = []) then None else
  match delimiter, rest with
  | None, _ => Some (digits_value ds, rest)
  | Some c, c' :: rest' =>
      if bool_decide (c = c') then Some (digits_value ds, rest') else None
  | Some _, [] => None
  end.

(** The six numbers of a text [y-M-d H:m:s]; what follows them is not read. *)
Definition date_time_fields (text : string) : option (Z * Z * Z * Z * Z * Z) :=
  '(y, s1) ← number_then (Some "-"%char) (list_ascii_of_string text);
  '(m, s2) ← number_then (Some "-"%char) s1;
  '(d, s3) ← number_then (Some " "%char) s2;
  '(hh, s4) ← number_then (Some ":"%char) s3;
  '(mm, s5) ← number_then (Some ":"%char) s4;
  '(ss, _) ← number_then None s5;
  Some (y, m, d, hh, mm, ss).

(** The day week 1 of a week year starts on: with the weeks of the locale US
    (Sunday first, week 1 the week of January 1) the Sunday on or before
    January 1. *)
Definition week_year_start (y : Z) : Z :=
  let january_1 := days_from_civil y 1 1 in
  january_1 - (january_1 + 4) mod 7.

(** The pattern letters [yyyy] read the calendar year, and the date is the
    day of that year, month and day of month.  The letters [YYYY] read the
    week year: with no week and no day of week in the pattern the date is the
    first day of week 1 of that week year, and the month and the day of month
    of the text are dropped.  The time of day is read the same under both,
    and has to be one.  (Dates from 1583 on; any other pattern is taken as
    one the text does not parse under.) *)
Definition to_timestamp_emr_5_30_0 (text pattern : string) : option Z :=
  '(y, m, d, hh, mm, ss) ← date_time_fields text;
  if negb (bool_decide (hh < 24 ∧ mm < 60 ∧ ss < 60)) then None else
  let at_day (days : Z) : option Z :=
    Some ((days * seconds_per_day + hh * 3600 + mm * 60 + ss) * micros_per_second) in
  if String.eqb pattern "YYYY-MM-dd HH:mm:ss" then at_day (week_year_start y)
  else if String.eqb pattern "yyyy-MM-dd HH:mm:ss" then
    if bool_decide (civil_from_days (days_from_civil y m d) = (y, m, d))
    then at_day (days_from_civil y m d) else None
  else None.

Definition epoch_day (t : Z) : Z := t / micros_per_second / seconds_per_day.

Definition hour (t : Z) : Z := (t / micros_per_second) mod seconds_per_day / 3600.
Definition dayofmonth (t : Z) : Z := snd (civil_from_days (epoch_day t)).
Definition month (t : Z) : Z := snd (fst (civil_from_days (epoch_day t))).
Definition year (t : Z) : Z := fst (fst (civil_from_days (epoch_day t))).

(** [F.dayofweek]: 1 = Sunday, ..., 7 = Saturday. *)
Definition dayofweek (t : Z) : Z := (epoch_day t + 4) mod 7 + 1.

(** [F.weekofyear]: the ISO 8601 week, that of the Thursday of the week
    (Monday first) the day lies in. *)
Definition weekofyear (t : Z) : Z :=
  let days := epoch_day t in
  let thursday := days - (days + 3) mod 7 + 3 in
  let y := fst (fst (civil_from_days thursday)) in
  (thursday - days_from_civil y 1 1) / 7 + 1.

(** *** Exceptions and the log *)

(** The exceptions a job meets; all of them are Python [Exception]s. *)
Inductive exn :=
  | AnalysisException (path : string)
  | AttributeError (name : string)
  | Py4JJavaError (action : string).

(** [except Exception]. *)
Definition Exception (e : exn) : bool := true.

(** The calls made to [logging], in order. *)
Inductive LogRecord :=
  | INFO (msg : string)
  | ERROR (e : exn).

(** A DataFrame is the list of its partitions, in partition order. *)
Abbreviation DataFrame A := (list (list A)) (only parsing).

(** *** Rows

    [schema["log_data"]] and [schema["song_data"]], read in PERMISSIVE mode:
    every column is nullable.  [float] stands for the values of a FloatType
    column, compared the way the engine groups them. *)

Section Model.

Context {float : Type} `{EqDecision float}.

(** The engine's [F.to_timestamp(text, format)]: the timestamp a text
    parses to under a pattern, null when it does not parse.  What holds of
    the job under any parser is stated over this one; the parser of the
    release the launcher asks for is [to_timestamp_emr_5_30_0]. *)
Variable to_timestamp : string → string → option Z.

Record LogData := {
  log_artist : option string;
  log_auth : option string;
  log_firstName : option string;
  log_gender : option string;
  log_itemInSession : option Z;
  log_lastName : option string;
  log_length : option float;
  log_level : option string;
  log_location : option string;
  log_method : option string;
  log_page : option string;
  log_registration : option float;
  log_sessionId : option Z;
  log_song : option string;
  log_status : option Z;
  log_ts : option string;
  log_userAgent : option string;
  log_userId : option string
}.

Record SongData := {
  sd_artist_id : option string;
  sd_artist_latitude : option float;
  sd_artist_location : option string;
  sd_artist_longitude : option float;
  sd_artist_name : option string;
  sd_duration : option float;
  sd_num_songs : option Z;
  sd_song_id : option string;
  sd_title : option string;
  sd_year : option Z
}.

(** The five output tables. *)
Record SongsRow := {
  songs_song_id : option string;
  songs_title : option string;
  songs_artist_id : option string;
  songs_year : option Z;
  songs_duration : option float
}.

Record ArtistsRow := {
  artists_artist_id : option string;
  artists_name : option string;
  artists_location : option string;
  artists_latitude : option float;
  artists_longitude : option float
}.

Record UsersRow := {
  users_user_id : option string;
  users_first_name : option string;
  users_last_name : option string;
  users_gender : option string;
  users_level : option string
}.

Record TimeRow := {
  time_start_time : option Z;
  time_hour : option Z;
  time_day : option Z;
  time_week : option Z;
  time_month : option Z;
  time_year : option Z;
  time_weekday : option Z
}.

Record SongplaysRow := {
  sp_songplay_id : Z;
  sp_start_time : option Z;
  sp_user_id : option string;
  sp_level : option string;
  sp_song_id : option string;
  sp_artist_id : option string;
  sp_session_id : option Z;
  sp_location : option string;
  sp_user_agent : option string
}.

#[global] Instance LogData_eq_dec : EqDecision LogData.
Proof. solve_decision. Defined.
#[global] Instance SongData_eq_dec : EqDecision SongData.
Proof. solve_decision. Defined.
#[global] Instance SongsRow_eq_dec : EqDecision SongsRow.
Proof. solve_decision. Defined.
#[global] Instance ArtistsRow_eq_dec : EqDecision ArtistsRow.
Proof. solve_decision. Defined.
#[global] Instance UsersRow_eq_dec : EqDecision UsersRow.
Proof. solve_decision. Defined.
#[global] Instance TimeRow_eq_dec : EqDecision TimeRow.
Proof. solve_decision. Defined.
#[global] Instance SongplaysRow_eq_dec : EqDecision SongplaysRow.
Proof. solve_decision. Defined.

(** *** The engine's DataFrame operations *)

(** The rows of a frame in the order a write emits them. *)
Definition collect {A} (df : DataFrame A) : list A := mjoin df.

(** [df.where(cond)]: a row stays when the condition is true (not null). *)
Definition where_ {A} (P : A → Prop) `{∀ x, Decision (P x)}
  (df : DataFrame A) : DataFrame A := filter P <$> df.

(** [df.select(...)], [df.selectExpr(...)], [df.withColumn(...)]: row by row. *)
Definition select {A B} (f : A → B) (df : DataFrame A) : DataFrame B :=
  (λ part : list A, f <$> part) <$> df.

(** [df.dropDuplicates()]: one row of each group of equal rows. *)
Definition dropDuplicates {A} `{EqDecision A} (df : DataFrame A) : DataFrame A :=
  [remove_dups (collect df)].

(** [left.join(right, cond, how = "inner")] under the plan that broadcasts
    the right side, the plan of the engine when the right side is the
    smaller one: each left partition keeps its place, and a left row is
    followed by its matches in the order of the right side.  (When the left
    side is the smaller one the engine broadcasts that, and the pairs come in
    the partitions of the right side: the same pairs, laid out otherwise.) *)
Definition join {A B} (cond : A → B → bool) (left : DataFrame A)
  (right : DataFrame B) : DataFrame (A * B) :=
  (λ part : list A,
     l ← part; (λ r, (l, r)) <$> filter (λ r, cond l r) (collect right)) <$> left.

(** Arithmetic on LongType wraps around. *)
Definition wrap64 (z : Z) : Z := (z + 2 ^ 63) mod 2 ^ 64 - 2 ^ 63.

(** [F.monotonically_increasing_id()]: the partition index in the upper 31
    bits, the position of the record in its partition in the lower 33. *)
Definition monotonically_increasing_id (partition record : nat) : Z :=
  wrap64 (Z.shiftl (Z.of_nat partition) 33 + Z.of_nat record).

(** [df.withColumn(name, F.monotonically_increasing_id() + 1)]. *)
Definition withColumn_id_plus_1 {A} (df : DataFrame A) : DataFrame (Z * A) :=
  imap (λ p part,
    imap (λ r x, (wrap64 (monotonically_increasing_id p r + 1), x)) part) df.

(** SQL equality of two nullable strings, as a join or filter condition:
    true only when both sides are present and equal. *)
Definition sql_eqb (a b : option string) : bool :=
  match a, b with
  | Some x, Some y => bool_decide (x = y)
  | _, _ => false
  end.

(** *** The output directory and the job monad *)

(** What a table directory holds: the rows a write emitted, in order. *)
Inductive Table :=
  | TSongs (rows : list SongsRow)
  | TArtists (rows : list ArtistsRow)
  | TUsers (rows : list UsersRow)
  | TTime (rows : list TimeRow)
  | TSongplays (rows : list SongplaysRow).

Definition row_count (t : Table) : nat :=
  match t with
  | TSongs rows => length rows
  | TArtists rows => length rows
  | TUsers rows => length rows
  | TTime rows => length rows
  | TSongplays rows => length rows
  end.

(** [fs]: the table directories under [output_path], by name.
    [log]: the logging calls so far.
    [faults]: whether each of the coming engine actions (a write, a read
    back, a count) fails for a reason the directories do not show: one
    outside the job, or a read back that finds no data file, as in a
    directory written with [partitionBy] from a frame without a row; none
    once exhausted. *)
Record World := {
  fs : gmap string Table;
  log : list LogRecord;
  faults : list bool
}.

Abbreviation Job A := (M World exn A).

Definition logging_info (msg : string) : Job unit :=
  λ w, (Ok (), {| fs := fs w; log := log w ++ [INFO msg]; faults := faults w |}).

Definition logging_error (e : exn) : Job unit :=
  λ w, (Ok (), {| fs := fs w; log := log w ++ [ERROR e]; faults := faults w |}).

(** [df.write.parquet(path, mode = "overwrite")]: the directory is replaced
    by the rows of the frame; a failed overwrite leaves it removed. *)
Definition write_parquet (path : string) (t : Table) : Job unit :=
  λ w, match faults w with
       | true :: rest =>
           (Raise (Py4JJavaError path),
            {| fs := delete path (fs w); log := log w; faults := rest |})
       | _ =>
           (Ok (),
            {| fs := <[path := t]> (fs w); log := log w; faults := tail (faults w) |})
       end.

(** [spark.read.parquet(path)]: the table of the directory, and an
    AnalysisException where there is none. *)
Definition read_parquet (path : string) : Job Table :=
  λ w, match faults w with
       | true :: rest =>
           (Raise (Py4JJavaError path),
            {| fs := fs w; log := log w; faults := rest |})
       | _ =>
           let w' := {| fs := fs w; log := log w; faults := tail (faults w) |} in
           match fs w !! path with
           | Some t => (Ok t, w')
           | None => (Raise (AnalysisException path), w')
           end
       end.

(** [df.count()]. *)
Definition count (t : Table) : Job nat :=
  λ w, match faults w with
       | true :: rest =>
           (Raise (Py4JJavaError "count"),
            {| fs := fs w; log := log w; faults := rest |})
       | _ =>
           (Ok (row_count t),
            {| fs := fs w; log := log w; faults := tail (faults w) |})
       end.

(** The columns [title], [song_id], [artist_id] of the frame read back from
    the songs directory, with the rows as they were written and in one
    partition; a frame without the columns has no such attribute.  (The
    engine lays the rows in one partition for each group of part files, and
    reads [year] and [artist_id] back from the directory names.) *)
Definition songs_frame (t : Table) : Job (DataFrame SongsRow) :=
  match t with
  | TSongs rows => ret [rows]
  | _ => raise (AttributeError "title")
  end.

(** *** The job *)

Definition tables : list string := ["songs"; "artists"; "users"; "time"; "songplays"].

Definition initialize_SparkSession : Job unit :=
  logging_info "INITIALIZING SparkSession...".

(** [selectExpr(["userId as user_id", "firstName as first_name",
    "lastName as last_name", "gender", "level"])]. *)
Definition users_columns (r : LogData) : UsersRow :=
  {| users_user_id := log_userId r;
     users_first_name := log_firstName r;
     users_last_name := log_lastName r;
     users_gender := log_gender r;
     users_level := log_level r |}.

(** [df["ts"] / 1000]: the text cast to a number and divided; the quotient
    keeps its fraction (exact here, a double in the engine, which agrees on
    the whole seconds of any count of milliseconds below 2^53).  A text that
    is no number is taken as null. *)
Definition ts_div_1000 (ts : string) : option Q :=
  (λ x, x / 1000)%Q <$> parse_double ts.

(** The cast to bigint of the argument of [from_unixtime]: toward zero, and
    no further than the ends of LongType. *)
Definition cast_long (q : Q) : Z :=
  Z.max (- 2 ^ 63) (Z.min (2 ^ 63 - 1) (Z.quot (Qnum q) (Z.pos (Qden q)))).

(** [F.to_timestamp(F.from_unixtime(df["ts"]/1000),
    format = "YYYY-MM-dd HH:mm:ss")]. *)
Definition start_time (r : LogData) : option Z :=
  ts ← log_ts r;
  q ← ts_div_1000 ts;
  to_timestamp (from_unixtime (cast_long q)) "YYYY-MM-dd HH:mm:ss".

(** A log row with its [start_time] column. *)
Record Event := {
  ev_log : LogData;
  ev_start_time : option Z
}.

Definition withColumn_start_time (r : LogData) : Event :=
  {| ev_log := r; ev_start_time := start_time r |}.

Definition time_columns (e : Event) : TimeRow :=
  {| time_start_time := ev_start_time e;
     time_hour := hour <$> ev_start_time e;
     time_day := dayofmonth <$> ev_start_time e;
     time_week := weekofyear <$> ev_start_time e;
     time_month := month <$> ev_start_time e;
     time_year := year <$> ev_start_time e;
     time_weekday := dayofweek <$> ev_start_time e |}.

Definition songplays_columns (x : Z * (Event * SongsRow)) : SongplaysRow :=
  let '(id, (e, s)) := x in
  {| sp_songplay_id := id;
     sp_start_time := ev_start_time e;
     sp_user_id := log_userId (ev_log e);
     sp_level := log_level (ev_log e);
     sp_song_id := songs_song_id s;
     sp_artist_id := songs_artist_id s;
     sp_session_id := log_sessionId (ev_log e);
     sp_location := log_location (ev_log e);
     sp_user_agent := log_userAgent (ev_log e) |}.

(** The frames [process_log_data] builds, named as its variables are. *)
Definition log_df (input : DataFrame LogData) : DataFrame LogData :=
  where_ (λ r, log_page r = Some "NextSong") input.

Definition users_table (input : DataFrame LogData) : DataFrame UsersRow :=
  dropDuplicates (select users_columns (log_df input)).

Definition time_table (input : DataFrame LogData) : DataFrame TimeRow :=
  dropDuplicates (select time_columns (select withColumn_start_time (log_df input))).

Definition joined_df (input : DataFrame LogData) (df_songs : DataFrame SongsRow)
  : DataFrame (Event * SongsRow) :=
  join (λ e s, sql_eqb (log_song (ev_log e)) (songs_title s))
       (select withColumn_start_time (log_df input)) df_songs.

Definition songplays_table (input : DataFrame LogData) (df_songs : DataFrame SongsRow)
  : DataFrame SongplaysRow :=
  select songplays_columns (withColumn_id_plus_1 (joined_df input df_songs)).

Definition process_log_data (input : DataFrame LogData) : Job unit :=
  logging_info "PROCESSING log_data...";;
  logging_info "CREATING users...";;
  write_parquet "users" (TUsers (collect (users_table input)));;
  logging_info "CREATING time...";;
  write_parquet "time" (TTime (collect (time_table input)));;
  t ← read_parquet "songs";
  df_songs ← songs_frame t;
  logging_info "CREATING songplays...";;
  write_parquet "songplays" (TSongplays (collect (songplays_table input df_songs)));;
  logging_info "PROCESSED log_data.".

Definition songs_columns (r : SongData) : SongsRow :=
  {| songs_song_id := sd_song_id r;
     songs_title := sd_title r;
     songs_artist_id := sd_artist_id r;
     songs_year := sd_year r;
     songs_duration := sd_duration r |}.

Definition artists_columns (r : SongData) : ArtistsRow :=
  {| artists_artist_id := sd_artist_id r;
     artists_name := sd_artist_name r;
     artists_location := sd_artist_location r;
     artists_latitude := sd_artist_latitude r;
     artists_longitude := sd_artist_longitude r |}.

Definition songs_table (input : DataFrame SongData) : DataFrame SongsRow :=
  dropDuplicates (select songs_columns input).

Definition artists_table (input : DataFrame SongData) : DataFrame ArtistsRow :=
  dropDuplicates (select artists_columns input).

Definition process_song_data (input : DataFrame SongData) : Job unit :=
  logging_info "PROCESSING song_data...";;
  logging_info "CREATING songs...";;
  write_parquet "songs" (TSongs (collect (songs_table input)));;
  logging_info "CREATING artists...";;
  write_parquet "artists" (TArtists (collect (artists_table input)));;
  logging_info "PROCESSED song_data.".

(** One turn of the loop that counts the rows of each table. *)
Definition count_rows (table : string) : Job unit :=
  try_except Exception
    (df ← read_parquet table;
     n ← count df;
     logging_info (table +:+ ": ROWS = " +:+ pretty n))
    (λ e, logging_error e).

(** [spark.catalog.clearCache()] and [spark.stop()] touch neither the
    output directory nor the log. *)
Definition clearCache : Job unit := ret ().
Definition stop : Job unit := ret ().

Definition main (song_data : DataFrame SongData) (log_data : DataFrame LogData)
  : Job unit :=
  initialize_SparkSession;;
  process_song_data song_data;;
  clearCache;;
  process_log_data log_data;;
  for_each tables count_rows;;
  stop.

(** *** Vocabulary of the properties *)

(** The two transformers of [main], without the counting loop. *)
Definition transform (song_data : DataFrame SongData)
  (log_data : DataFrame LogData) : Job unit :=
  initialize_SparkSession;;
  process_song_data song_data;;
  clearCache;;
  process_log_data log_data.

(** What one turn of the counting loop logs about a table of a directory:
    its row count when it could be read and counted, the error otherwise. *)
Inductive reported (dir : gmap string Table) (table : string)
  : LogRecord → Prop :=
  | reported_count t :
      dir !! table = Some t →
      reported dir table (INFO (table +:+ ": ROWS = " +:+ pretty (row_count t)))
  | reported_missing :
      dir !! table = None →
      reported dir table (ERROR (AnalysisException table))
  | reported_fault action :
      reported dir table (ERROR (Py4JJavaError action)).

(** The ids of a frame whose first partition has index [k], partition by
    partition. *)
Fixpoint ids_from {A} (k : nat) (df : list (list A)) : list Z :=
  match df with
  | [] => []
  | part :: df =>
      ((λ r : nat, Z.of_nat k * 2 ^ 33 + Z.of_nat r + 1) <$> seq 0 (length part))
      ++ ids_from (S k) df
  end.

End Model.

End Etl.

(** ** run.py *)

Module Run.

(** The exceptions of the launcher: what [botocore] raises for a refused
    request, what the services' clients raise otherwise, and Python's own
    for a local variable read before it is bound. *)
Inductive exn :=
  | ClientError (msg : string)
  | OtherError (msg : string)
  | UnboundLocalError (name : string).

(** [except ClientError]. *)
Definition is_ClientError (e : exn) : bool :=
  match e with
  | ClientError _ => true
  | _ => false
  end.

(** [str(e)]. *)
Definition str (e : exn) : string :=
  match e with
  | ClientError msg => msg
  | OtherError msg => msg
  | UnboundLocalError name =>
      "local variable '" +:+ name +:+ "' referenced before assignment"
  end.

(** The [AWS] group of [dl.cfg]. *)
Record Config := {
  region_name : string;
  aws_access_key_id : string;
  aws_secret_access_key : string;
  aws_session_token : string;
  LogUri : string;
  s3_bucket : string
}.

Definition files : list string := ["etl.py"; "dl.cfg"].

Definition file_path (config : Config) : string :=
  "s3://" +:+ s3_bucket config +:+ "/" +:+ default "" (files !! 0%nat).

Definition config_path (config : Config) : string :=
  "s3://" +:+ s3_bucket config +:+ "/" +:+ default "" (files !! 1%nat).

(** The request of [emr.run_job_flow]. *)
Record InstanceGroup := {
  ig_Name : string;
  ig_Market : string;
  ig_InstanceRole : string;
  ig_InstanceType : string;
  ig_InstanceCount : Z
}.

Record Step := {
  step_Name : string;
  step_ActionOnFailure : string;
  step_Jar : string;
  step_Args : list string
}.

Record JobFlow := {
  jf_Name : string;
  jf_LogUri : string;
  jf_ReleaseLabel : string;
  jf_Applications : list string;
  jf_InstanceGroups : list InstanceGroup;
  jf_Ec2KeyName : string;
  jf_KeepJobFlowAliveWhenNoSteps : bool;
  jf_TerminationProtected : bool;
  jf_VisibleToAllUsers : bool;
  jf_JobFlowRole : string;
  jf_ServiceRole : string;
  jf_Steps : list Step
}.

(** [stdout]: the lines printed so far.
    [objects]: the objects put so far, as (file, bucket, key).
    [job_flows]: the cluster requests made so far.
    [s3_refuses]: the exception [upload_file] raises for a file, if any.
    [emr_answers]: what [run_job_flow] answers: an exception, or a response
    with or without a [ClusterArn]. *)
Record World := {
  stdout : list string;
  objects : list (string * string * string);
  job_flows : list JobFlow;
  s3_refuses : string → option exn;
  emr_answers : result exn (option string)
}.

Abbreviation Job A := (M World exn A).

Definition print (line : string) : Job unit :=
  λ w, (Ok (),
        {| stdout := stdout w ++ [line]; objects := objects w;
           job_flows := job_flows w; s3_refuses := s3_refuses w;
           emr_answers := emr_answers w |}).

(** [s3.upload_file(file_name, bucket, object_name)]; it returns [None]. *)
Definition s3_upload_file (file_name bucket object_name : string) : Job unit :=
  λ w, match s3_refuses w file_name with
       | Some e => (Raise e, w)
       | None =>
           (Ok (),
            {| stdout := stdout w;
               objects := objects w ++ [(file_name, bucket, object_name)];
               job_flows := job_flows w; s3_refuses := s3_refuses w;
               emr_answers := emr_answers w |})
       end.

(** [emr.run_job_flow(...)]; the response's [ClusterArn], if it has one. *)
Definition emr_run_job_flow (request : JobFlow) : Job (option string) :=
  λ w, (emr_answers w,
        {| stdout := stdout w; objects := objects w;
           job_flows := job_flows w ++ [request]; s3_refuses := s3_refuses w;
           emr_answers := emr_answers w |}).

(** The loop of [upload_files]; [response] is the local variable of that
    name, [None] while it is unbound. *)
Fixpoint upload_loop (files : list string) (bucket : string)
  (response : option unit) : Job (option unit) :=
  match files with
  | [] => ret response
  | file_name :: rest =>
      let object_name := file_name in
      response ←
        try_except is_ClientError
          (print ("UPLOADING " +:+ file_name +:+ "...");;
           r ← s3_upload_file file_name bucket object_name;
           print "DONE!";;
           ret (Some r))
          (λ e, print (str e);; ret response);
      upload_loop rest bucket response
  end.

Definition upload_files (files : list string) (bucket : string) : Job unit :=
  response ← upload_loop files bucket None;
  match response with
  | Some r => ret r
  | None => raise (UnboundLocalError "response")
  end.

Definition job_flow (config : Config) : JobFlow :=
  {| jf_Name := "Sparkify_Data_Lake_Job";
     jf_LogUri := LogUri config;
     jf_ReleaseLabel := "emr-5.30.0";
     jf_Applications := ["Spark"];
     jf_InstanceGroups :=
       [ {| ig_Name := "Master nodes"; ig_Market := "ON_DEMAND";
            ig_InstanceRole := "MASTER"; ig_InstanceType := "m5.xlarge";
            ig_InstanceCount := 1 |};
         {| ig_Name := "Slave nodes"; ig_Market := "ON_DEMAND";
            ig_InstanceRole := "CORE"; ig_InstanceType := "m5.xlarge";
            ig_InstanceCount := 3 |} ];
     jf_Ec2KeyName := "spark-pem";
     jf_KeepJobFlowAliveWhenNoSteps := false;
     jf_TerminationProtected := false;
     jf_VisibleToAllUsers := true;
     jf_JobFlowRole := "EMR_EC2_DefaultRole";
     jf_ServiceRole := "EMR_DefaultRole";
     jf_Steps :=
       [ {| step_Name := "spark-transform-step";
            step_ActionOnFailure := "CONTINUE";
            step_Jar := "s3n://elasticmapreduce/libs/script-runner/script-runner.jar";
            step_Args :=
              [ "/usr/bin/spark-submit"; "--deploy-mode"; "cluster";
                "--driver-memory"; "10g"; "--num-executors"; "5";
                "--executor-cores"; "2"; "--executor-memory"; "10g";
                "--py-files"; config_path config; file_path config ] |} ] |}.

(** The arguments of the steps of a cluster request. *)
Definition step_arguments (request : JobFlow) : list string :=
  step ← jf_Steps request; step_Args step.

Definition create_emr_cluster (config : Config) : Job bool :=
  print "CREATING emr cluster...";;
  cluster_arn ← emr_run_job_flow (job_flow config);
  print ("STARTED cluster " +:+ default "None" cluster_arn +:+ ".");;
  ret true.

Definition main (config : Config) : Job unit :=
  upload_files files (s3_bucket config);;
  create_emr_cluster config;;
  ret ().

End Run.


(** ** Sample data

    The scenario of the specification: a play of "Fix You" by user 26 in
    session 100 at 1542242870796 ms, and the catalog record of the song.
    FloatType values are integers here. *)

Module Sample.

Import Etl.

(** The sample runs are on the release the launcher asks for. *)
Definition to_timestamp : string → string → option Z := to_timestamp_emr_5_30_0.

Definition log_record (page song ts firstName : string) : @LogData Z :=
  {| log_artist := Some "Coldplay";
     log_auth := Some "Logged In";
     log_firstName := Some firstName;
     log_gender := Some "M";
     log_itemInSession := Some 0;
     log_lastName := Some "Smith";
     log_length := Some 295;
     log_level := Some "free";
     log_location := Some "San Jose-Sunnyvale-Santa Clara, CA";
     log_method := Some "PUT";
     log_page := Some page;
     log_registration := Some 1541016707796;
     log_sessionId := Some 100;
     log_song := Some song;
     log_status := Some 200;
     log_ts := Some ts;
     log_userAgent := Some "Mozilla/5.0";
     log_userId := Some "26" |}.

Definition play : @LogData Z := log_record "NextSong" "Fix You" "1542242870796" "Ryan".
Definition play_on_the_second : @LogData Z :=
  log_record "NextSong" "Fix You" "1542242870000" "Ryan".
Definition play_as_bob : @LogData Z := log_record "NextSong" "Fix You" "1542242870796" "Bob".
Definition play_unknown : @LogData Z :=
  log_record "NextSong" "No Such Song" "1542242871796" "Ryan".
Definition home : @LogData Z := log_record "Home" "Fix You" "not a number" "Ryan".

Definition catalog_record (song_id : option string) : @SongData Z :=
  {| sd_artist_id := Some "ARXYZ456";
     sd_artist_latitude := None;
     sd_artist_location := Some "London";
     sd_artist_longitude := None;
     sd_artist_name := Some "Coldplay";
     sd_duration := Some 295;
     sd_num_songs := Some 1;
     sd_song_id := song_id;
     sd_title := Some "Fix You";
     sd_year := Some 2005 |}.

Definition fix_you : @SongData Z := catalog_record (Some "SOXYZ123").
Definition fix_you_without_id : @SongData Z := catalog_record None.

(** An empty output directory, and no fault ahead. *)
Definition fresh : @World Z := {| fs := ∅; log := []; faults := [] |}.

(** A directory that holds the songs table only. *)
Definition with_songs : @World Z :=
  {| fs := {["songs" := TSongs [songs_columns fix_you]]}; log := []; faults := [] |}.


(** A launcher configuration, and a bucket that refuses every upload. *)
Definition config : Run.Config :=
  {| Run.region_name := "us-west-2";
     Run.aws_access_key_id := "key";
     Run.aws_secret_access_key := "secret";
     Run.aws_session_token := "token";
     Run.LogUri := "s3://sparkify/logs";
     Run.s3_bucket := "sparkify" |}.

Definition access_denied : Run.exn :=
  Run.ClientError "An error occurred (AccessDenied) when calling the PutObject operation".

Definition launcher (s3_refuses : string → option Run.exn) : Run.World :=
  {| Run.stdout := [];
     Run.objects := [];
     Run.job_flows := [];
     Run.s3_refuses := s3_refuses;
     Run.emr_answers := Ok (Some "arn:aws:elasticmapreduce:us-west-2:1:cluster/j-1") |}.

End Sample.


(** * Properties *)

(** ** The job monad *)

Lemma bind_Ok {W E A B} (m : M W E A) (k : A → M W E B) w b w' :
  bind m k w = (Ok b, w') ↔ ∃ a w1, m w = (Ok a, w1) ∧ k a w1 = (Ok b, w').
Proof.
  unfold bind. destruct (m w) as [[a|e] w1]; split.
  - intros Hk. by exists a, w1.
  - by intros (? & ? & [= <- <-] & Hk).
  - discriminate.
  - by intros (? & ? & [=] & _).
Qed.

Lemma bind_run_Ok {W E A B} (m : M W E A) (k : A → M W E B) w a w1 :
  m w = (Ok a, w1) → bind m k w = k a w1.
Proof. unfold bind. by intros ->. Qed.

Lemma bind_run_Raise {W E A B} (m : M W E A) (k : A → M W E B) w e w1 :
  m w = (Raise e, w1) → bind m k w = (Raise e, w1).
Proof. unfold bind. by intros ->. Qed.

(** ** etl.py *)

Import Etl.

(** *** The calendar on known dates *)

Example from_unixtime_scenario :
  from_unixtime 1542242870 = "2018-11-15 00:47:50".
Proof. reflexivity. Qed.

Example calendar_scenario :
  let t := 1542242870 * micros_per_second in
  (hour t, dayofmonth t, weekofyear t, month t, year t, dayofweek t)
  = (0, 15, 46, 11, 2018, 5).
Proof. reflexivity. Qed.

Example calendar_new_year :
  let t := days_from_civil 2021 1 1 * seconds_per_day * micros_per_second in
  (dayofmonth t, weekofyear t, month t, year t, dayofweek t) = (1, 53, 1, 2021, 6).
Proof. reflexivity. Qed.

Example parse_double_scenario :
  parse_double "1542242870796" = Some (inject_Z 1542242870796) ∧
  parse_double " 1.5e3 " = Some (inject_Z 1500) ∧
  parse_double "-.25" = Some (-25 # 100) ∧
  parse_double "12e" = None ∧
  parse_double "not a number" = None.
Proof. repeat split; reflexivity. Qed.

(** The week year 2018 starts on Sunday 2017-12-31; 2017, whose January 1
    is a Sunday, on that day. *)
Example week_year_start_scenario :
  civil_from_days (week_year_start 2018) = (2017, 12, 31) ∧
  civil_from_days (week_year_start 2017) = (2017, 1, 1) ∧
  civil_from_days (week_year_start 2021) = (2020, 12, 27).
Proof. repeat split; reflexivity. Qed.

Example to_timestamp_patterns :
  to_timestamp_emr_5_30_0 "2018-11-15 00:47:50" "yyyy-MM-dd HH:mm:ss"
  = Some (1542242870 * micros_per_second) ∧
  to_timestamp_emr_5_30_0 "2018-11-15 00:47:50" "YYYY-MM-dd HH:mm:ss"
  = Some (1514681270 * micros_per_second) ∧
  to_timestamp_emr_5_30_0 "2018-02-30 00:47:50" "yyyy-MM-dd HH:mm:ss" = None ∧
  to_timestamp_emr_5_30_0 "2018-11-15 24:00:00" "YYYY-MM-dd HH:mm:ss" = None ∧
  to_timestamp_emr_5_30_0 "2018-11-15" "YYYY-MM-dd HH:mm:ss" = None.
Proof. repeat split; reflexivity. Qed.

(** Unfolds a job down to its effect on the world. *)
Ltac run_job :=
  cbv [process_log_data process_song_data initialize_SparkSession clearCache stop
       mbind M_bind bind mret M_ret ret raise
       logging_info logging_error write_parquet read_parquet count songs_frame];
  cbn [fs log faults tail fst snd].

(** Looks a table up in a directory built by writes. *)
Ltac lookup_tables :=
  repeat first
    [ rewrite lookup_insert_eq | rewrite lookup_insert_ne by done
    | rewrite lookup_delete_eq | rewrite lookup_delete_ne by done ].

(** Splits on whether the coming engine actions fail, and on what the read
    back of the songs directory finds. *)
Ltac next_fault :=
  match goal with
  | |- context [match ?fl with [] => _ | _ => _ end] =>
      is_var fl; destruct fl as [|[] fl]
  | |- context [match ?f !! "songs" with _ => _ end] =>
      let Hs := fresh "Hs" in destruct (f !! "songs") as [[]|] eqn:Hs
  end;
  cbn [fs log faults tail fst snd head];
  rewrite ?lookup_insert_ne, ?lookup_delete_ne by done;
  try discriminate.

Section EtlFacts.

Context {float : Type} `{EqDecision float}.
Variable to_timestamp : string → string → option Z.
Implicit Types (w : @World float) (input : list (list (@LogData float))).
Implicit Types (song_data : list (list (@SongData float))).
Implicit Types (songs : list (@SongsRow float)).

(** *** What the engine's operations keep *)

Lemma elem_of_collect {A} (df : list (list A)) x :
  x ∈ collect df ↔ ∃ part, x ∈ part ∧ part ∈ df.
Proof. apply list_elem_of_join. Qed.

Lemma collect_cons {A} (part : list A) (df : list (list A)) :
  collect (part :: df) = part ++ collect df.
Proof. done. Qed.

Lemma collect_app {A} (df1 df2 : list (list A)) :
  collect (df1 ++ df2) = collect df1 ++ collect df2.
Proof. apply join_app. Qed.

Lemma NoDup_dropDuplicates {A} `{EqDecision A} (df : list (list A)) :
  NoDup (collect (dropDuplicates df)).
Proof.
  unfold dropDuplicates. rewrite collect_cons, app_nil_r.
  apply NoDup_remove_dups.
Qed.

Lemma elem_of_dropDuplicates {A} `{EqDecision A} (df : list (list A)) x :
  x ∈ collect (dropDuplicates df) ↔ x ∈ collect df.
Proof.
  unfold dropDuplicates. rewrite collect_cons, app_nil_r.
  apply elem_of_remove_dups.
Qed.

Lemma collect_select {A B} (f : A → B) (df : list (list A)) :
  collect (select f df) = f <$> collect df.
Proof.
  unfold select. induction df as [|part df IH]; [done|].
  by rewrite fmap_cons, !collect_cons, fmap_app, IH.
Qed.

Lemma collect_where {A} (P : A → Prop) `{∀ x, Decision (P x)} (df : list (list A)) :
  collect (where_ P df) = filter P (collect df).
Proof.
  unfold where_. induction df as [|part df IH]; [done|].
  by rewrite fmap_cons, !collect_cons, filter_app, IH.
Qed.

(** A row the filter rejects leaves no trace in the filtered frame. *)
Lemma where_rejected {A} (P : A → Prop) `{∀ x, Decision (P x)}
  (before after : list (list A)) (p1 p2 : list A) x :
  ¬ P x →
  where_ P (before ++ (p1 ++ x :: p2) :: after)
  = where_ P (before ++ (p1 ++ p2) :: after).
Proof.
  intros Hx. unfold where_. rewrite !fmap_app, !fmap_cons. do 2 f_equal.
  rewrite !filter_app, filter_cons_False by done. done.
Qed.

(** *** process_log_data, step by step *)

(** A run that returns found a songs table, and leaves the three tables it
    computes from the log and that table. *)
Lemma process_log_data_Ok input w w' :
  process_log_data to_timestamp input w = (Ok (), w') →
  ∃ songs, fs w !! "songs" = Some (TSongs songs) ∧
    fs w' =
      <["songplays" := TSongplays (collect (songplays_table to_timestamp input [songs]))]>
        (<["time" := TTime (collect (time_table to_timestamp input))]>
           (<["users" := TUsers (collect (users_table input))]> (fs w))).
Proof.
  destruct w as [f l fl]. run_job. repeat next_fault.
  all: intros [= <-]; eexists; split; [done|]; reflexivity.
Qed.

(** With a songs table in place and no fault, the run returns. *)
Lemma process_log_data_run input songs w :
  fs w !! "songs" = Some (TSongs songs) →
  faults w = [] →
  process_log_data to_timestamp input w =
    (Ok (),
     {| fs :=
          <["songplays" := TSongplays (collect (songplays_table to_timestamp input [songs]))]>
            (<["time" := TTime (collect (time_table to_timestamp input))]>
               (<["users" := TUsers (collect (users_table input))]> (fs w)));
        log := log w ++
          [INFO "PROCESSING log_data..."; INFO "CREATING users...";
           INFO "CREATING time..."; INFO "CREATING songplays...";
           INFO "PROCESSED log_data."];
        faults := [] |}).
Proof.
  destruct w as [f l fl]. cbn [fs log faults]. intros Hs ->. run_job.
  rewrite !lookup_insert_ne, Hs by done. cbn [fs log faults tail].
  by rewrite <- !app_assoc.
Qed.

(** Whatever happens later, the users table a run leaves is the one it
    computed: a failed write leaves none. *)
Lemma process_log_data_users input w rows :
  fs (process_log_data to_timestamp input w).2 !! "users" = Some (TUsers rows) →
  rows = collect (users_table input).
Proof.
  destruct w as [f l fl]. run_job. repeat next_fault.
  all: lookup_tables; by intros [= <-].
Qed.


Lemma process_log_data_time input w rows :
  fs (process_log_data to_timestamp input w).2 !! "time" = Some (TTime rows) →
  head (faults w) ≠ Some true →
  rows = collect (time_table to_timestamp input).
Proof.
  destruct w as [f l fl]. run_job. repeat next_fault.
  all: try (by intros _ []).
  all: lookup_tables; by intros [= <-].
Qed.

(** The job reads its input only through the filtered frame. *)
Lemma process_log_data_log_df input1 input2 :
  log_df input1 = log_df input2 →
  process_log_data to_timestamp input1 = process_log_data to_timestamp input2.
Proof.
  intros Heq. unfold process_log_data, users_table, time_table, songplays_table, joined_df.
  by rewrite Heq.
Qed.

(** *** The filter on the page *)

(** C5. A log record whose page is not "NextSong" (or is null) leaves no row
    in songplays nor in time: with the record or without it, whatever its
    other columns hold, a run leaves the same two tables. *)
Theorem other_pages_leave_no_row
  (before after : list (list (@LogData float))) (p1 p2 : list (@LogData float)) r w :
  log_page r ≠ Some "NextSong" →
  let with_r := process_log_data to_timestamp (before ++ (p1 ++ r :: p2) :: after) w in
  let without_r := process_log_data to_timestamp (before ++ (p1 ++ p2) :: after) w in
  fs with_r.2 !! "songplays" = fs without_r.2 !! "songplays" ∧
  fs with_r.2 !! "time" = fs without_r.2 !! "time".
Proof.
  intros Hpage with_r without_r. subst with_r without_r.
  rewrite (process_log_data_log_df (before ++ (p1 ++ r :: p2) :: after)
             (before ++ (p1 ++ p2) :: after)); [done|].
  unfold log_df. by apply where_rejected.
Qed.

(** Every row of the time table stems from a "NextSong" record. *)
Lemma time_rows_from_NextSong input row :
  row ∈ collect (time_table to_timestamp input) →
  ∃ r, r ∈ collect input ∧ log_page r = Some "NextSong" ∧
       row = time_columns (withColumn_start_time to_timestamp r).
Proof.
  unfold time_table, log_df.
  rewrite elem_of_dropDuplicates, !collect_select, collect_where.
  intros (e & -> & (r & -> & Hr)%list_elem_of_fmap)%list_elem_of_fmap.
  apply list_elem_of_filter in Hr as [Hpage Hr]. by exists r.
Qed.

(** *** Failure of the songplays stage *)

(** C10. When the writes of users and time do not fail, a run leaves the users
    and time tables it computed, whether it then returns or raises: it can
    only raise in the songplays stage, at the read back of the songs
    directory or at the write of songplays. *)
Theorem users_and_time_written_before_songplays input w :
  Forall (λ b, b = false) (take 2 (faults w)) →
  let run := process_log_data to_timestamp input w in
  fs run.2 !! "users" = Some (TUsers (collect (users_table input))) ∧
  fs run.2 !! "time" = Some (TTime (collect (time_table to_timestamp input))) ∧
  match run.1 with
  | Ok _ => True
  | Raise e =>
      e ∈ [Py4JJavaError "songs"; AnalysisException "songs";
           AttributeError "title"; Py4JJavaError "songplays"]
  end.
Proof.
  destruct w as [f l fl]. intros Hfl run. subst run. revert Hfl.
  run_job. repeat next_fault.
  all: cbn [take]; rewrite ?Forall_cons, ?Forall_nil.
  all: try (by intros Hfl; exfalso; intuition discriminate).
  all: intros _; repeat split; lookup_tables; try done.
  all: rewrite ?elem_of_cons; auto 10.
Qed.


(** *** process_song_data and main, step by step *)

Lemma process_song_data_Ok song_data w w' :
  process_song_data song_data w = (Ok (), w') →
  fs w' = <["artists" := TArtists (collect (artists_table song_data))]>
            (<["songs" := TSongs (collect (songs_table song_data))]> (fs w)).
Proof.
  destruct w as [f l fl]. run_job. repeat next_fault.
  all: by intros [= <-].
Qed.

Lemma process_song_data_run song_data w :
  faults w = [] →
  process_song_data song_data w =
    (Ok (),
     {| fs := <["artists" := TArtists (collect (artists_table song_data))]>
                (<["songs" := TSongs (collect (songs_table song_data))]> (fs w));
        log := log w ++
          [INFO "PROCESSING song_data..."; INFO "CREATING songs...";
           INFO "CREATING artists..."; INFO "PROCESSED song_data."];
        faults := [] |}).
Proof.
  destruct w as [f l fl]. cbn [fs log faults]. intros ->. run_job.
  by rewrite <- !app_assoc.
Qed.

(** One turn returns, logs one record, and leaves the directory as it was. *)
Lemma count_rows_run table w :
  ∃ record rest,
    count_rows table w =
      (Ok (), {| fs := fs w; log := log w ++ [record]; faults := rest |}) ∧
    reported (fs w) table record.
Proof.
  destruct w as [f l fl]. unfold count_rows, try_except, Exception. run_job.
  destruct fl as [|[] fl]; cbn [fs log faults tail].
  2: { eexists _, _; split; [done|]. constructor. }
  all: destruct (f !! table) as [t|] eqn:Ht; cbn [fs log faults tail].
  all: try (eexists _, _; split; [done|]; by constructor).
  all: destruct fl as [|[] fl]; cbn [fs log faults tail].
  all: eexists _, _; split; [done|]; by constructor.
Qed.

Lemma count_loop_run (names : list string) w :
  ∃ records rest,
    for_each names count_rows w =
      (Ok (), {| fs := fs w; log := log w ++ records; faults := rest |}) ∧
    Forall2 (reported (fs w)) names records.
Proof.
  revert w. induction names as [|table names IH]; intros w.
  - exists [], (faults w). rewrite app_nil_r. by destruct w.
  - destruct (count_rows_run table w) as (record & rest & Hrun & Hrec).
    cbn [for_each]. rewrite (bind_run_Ok _ _ _ _ _ Hrun).
    destruct (IH {| fs := fs w; log := log w ++ [record]; faults := rest |})
      as (records & rest' & -> & Hrecs).
    exists (record :: records), rest'. cbn [fs log] in *.
    rewrite <- app_assoc. split; [done|]. by constructor.
Qed.

Lemma main_transform song_data log_data w :
  main to_timestamp song_data log_data w =
    match transform to_timestamp song_data log_data w with
    | (Ok _, w1) => (for_each tables count_rows;; stop) w1
    | (Raise e, w1) => (Raise e, w1)
    end.
Proof.
  unfold main, transform. cbv [mbind M_bind bind].
  destruct (initialize_SparkSession w) as [[[]|?] w1]; [|done].
  destruct (process_song_data song_data w1) as [[[]|?] w2]; [|done].
  destruct (clearCache w2) as [[[]|?] w3]; [|done].
  by destruct (process_log_data to_timestamp log_data w3) as [[[]|?] w4].
Qed.

Lemma transform_Ok song_data log_data w w' :
  transform to_timestamp song_data log_data w = (Ok (), w') →
  let songs := collect (songs_table song_data) in
  fs w' =
    <["songplays" := TSongplays (collect (songplays_table to_timestamp log_data [songs]))]>
      (<["time" := TTime (collect (time_table to_timestamp log_data))]>
         (<["users" := TUsers (collect (users_table log_data))]>
            (<["artists" := TArtists (collect (artists_table song_data))]>
               (<["songs" := TSongs songs]> (fs w))))).
Proof.
  unfold transform. cbv [mbind M_bind].
  intros ([] & w1 & Hinit & ([] & w2 & Hsong & ([] & w3 & Hclear & Hlog)%bind_Ok)%bind_Ok)%bind_Ok.
  injection Hinit as <-. injection Hclear as <-.
  apply process_song_data_Ok in Hsong. apply process_log_data_Ok in Hlog.
  destruct Hlog as (songs' & Hsongs' & ->). cbn [fs] in Hsong.
  rewrite Hsong in Hsongs' |- *. revert Hsongs'. lookup_tables. by intros [= <-].
Qed.

Lemma main_Ok song_data log_data w w' :
  main to_timestamp song_data log_data w = (Ok (), w') →
  ∃ w1, transform to_timestamp song_data log_data w = (Ok (), w1) ∧ fs w' = fs w1.
Proof.
  rewrite main_transform.
  destruct (transform to_timestamp song_data log_data w) as [[[]|?] w1]; [|done].
  cbv [mbind M_bind bind stop ret].
  destruct (count_loop_run tables w1) as (records & rest & -> & _).
  intros [= <-]. by exists w1.
Qed.


(** *** Duplicates *)

(** C6. After a full run each of users, songs, artists and time is in place
    and holds no two rows equal in all their columns. *)
Theorem dimension_tables_have_no_duplicate_rows song_data log_data w w' :
  main to_timestamp song_data log_data w = (Ok (), w') →
  ∃ songs artists users time,
    fs w' !! "songs" = Some (TSongs songs) ∧ NoDup songs ∧
    fs w' !! "artists" = Some (TArtists artists) ∧ NoDup artists ∧
    fs w' !! "users" = Some (TUsers users) ∧ NoDup users ∧
    fs w' !! "time" = Some (TTime time) ∧ NoDup time.
Proof.
  intros (w1 & Hw1%transform_Ok & ->)%main_Ok. cbv zeta in Hw1. rewrite Hw1.
  eexists _, _, _, _. repeat split; lookup_tables; try done.
  all: apply NoDup_dropDuplicates.
Qed.

(** The users table is the set of the five projected columns of the
    "NextSong" records. *)
Lemma elem_of_users_table input u :
  u ∈ collect (users_table input) ↔
  ∃ r, r ∈ collect input ∧ log_page r = Some "NextSong" ∧ u = users_columns r.
Proof.
  unfold users_table, log_df.
  rewrite elem_of_dropDuplicates, collect_select, collect_where, list_elem_of_fmap.
  split.
  - intros (r & -> & [Hpage Hr]%list_elem_of_filter). by exists r.
  - intros (r & Hr & Hpage & ->). exists r. split; [done|].
    by apply list_elem_of_filter.
Qed.

(** C4, amended. When the "NextSong" records that share a user id and a level
    also share first name, last name and gender, no two rows of the users
    table share the pair (user_id, level). *)
Theorem users_unique_by_user_id_and_level input w rows :
  (∀ r1 r2, r1 ∈ collect input → r2 ∈ collect input →
     log_page r1 = Some "NextSong" → log_page r2 = Some "NextSong" →
     log_userId r1 = log_userId r2 → log_level r1 = log_level r2 →
     log_firstName r1 = log_firstName r2 ∧ log_lastName r1 = log_lastName r2 ∧
     log_gender r1 = log_gender r2) →
  fs (process_log_data to_timestamp input w).2 !! "users" = Some (TUsers rows) →
  NoDup ((λ u, (users_user_id u, users_level u)) <$> rows).
Proof.
  intros Hsame ->%process_log_data_users.
  apply NoDup_fmap_2_strong; [|apply NoDup_dropDuplicates].
  intros u1 u2 (r1 & Hr1 & Hp1 & ->)%elem_of_users_table
    (r2 & Hr2 & Hp2 & ->)%elem_of_users_table [= Hid Hlevel].
  cbn [users_columns users_user_id users_level] in Hid, Hlevel.
  destruct (Hsame r1 r2) as (Hfirst & Hlast & Hgender); try done.
  unfold users_columns. congruence.
Qed.

(** *** Running the job again *)

(** C7. A second full run on the same input, started from the directory the
    first run left, leaves each of the five tables as the first run did. *)
Theorem rerun_leaves_same_tables song_data log_data w w1 w1' w2 :
  main to_timestamp song_data log_data w = (Ok (), w1) →
  fs w1' = fs w1 →
  main to_timestamp song_data log_data w1' = (Ok (), w2) →
  Forall (λ table, is_Some (fs w1 !! table) ∧ fs w2 !! table = fs w1 !! table) tables.
Proof.
  intros (v1 & Hv1%transform_Ok & Hw1)%main_Ok Hsame
    (v2 & Hv2%transform_Ok & Hw2)%main_Ok.
  cbv zeta in Hv1, Hv2. rewrite Hw1, Hw2, Hv2, Hv1.
  unfold tables. repeat constructor; lookup_tables; done.
Qed.

(** *** The counting loop *)

(** C8. The loop over the five tables always returns: each table gets its
    turn and one log record, its row count or the error of its read back,
    nothing is written, and [main] returns or raises exactly as the two
    transformers before the loop did. *)
Theorem row_count_failures_not_fatal song_data log_data w :
  (∃ records rest,
     for_each tables count_rows w =
       (Ok (), {| fs := fs w; log := log w ++ records; faults := rest |}) ∧
     Forall2 (reported (fs w)) tables records) ∧
  (main to_timestamp song_data log_data w).1 = (transform to_timestamp song_data log_data w).1.
Proof.
  split; [apply count_loop_run|].
  rewrite main_transform.
  destruct (transform to_timestamp song_data log_data w) as [[[]|e] w1]; [|done].
  cbv [mbind M_bind bind stop ret].
  by destruct (count_loop_run tables w1) as (records & rest & -> & _).
Qed.


(** *** The join with the songs table *)

Lemma sql_eqb_true a b : sql_eqb a b = true ↔ ∃ t, a = Some t ∧ b = Some t.
Proof.
  destruct a as [x|], b as [y|]; simpl; rewrite ?bool_decide_eq_true.
  - split; [intros ->; by exists y|by intros (t & [= ->] & [= ->])].
  - split; [done|by intros (t & _ & [=])].
  - split; [done|by intros (t & [=] & _)].
  - split; [done|by intros (t & [=] & _)].
Qed.

Lemma elem_of_join {A B} (cond : A → B → bool) (left : list (list A))
  (right : list (list B)) x :
  x ∈ collect (join cond left right) ↔
  x.1 ∈ collect left ∧ x.2 ∈ collect right ∧ cond x.1 x.2 = true.
Proof.
  unfold join. rewrite elem_of_collect. destruct x as [l r]. simpl. split.
  - intros (part' & Hx & (part & -> & Hpart)%list_elem_of_fmap).
    apply list_elem_of_bind in Hx as (l' & Hr & Hl).
    apply list_elem_of_fmap in Hr as (r' & [= -> ->] & [Hc Hr]%list_elem_of_filter).
    split; [|by split; [|apply Is_true_true]].
    apply elem_of_collect. by exists part.
  - intros ((part & Hl & Hpart)%elem_of_collect & Hr & Hc).
    eexists. split; [|apply list_elem_of_fmap; by exists part].
    apply list_elem_of_bind. exists l. split; [|done].
    apply list_elem_of_fmap. exists r. split; [done|].
    apply list_elem_of_filter. by split; [apply Is_true_true|].
Qed.

Lemma elem_of_withColumn_id_plus_1 {A} (df : list (list A)) y :
  y ∈ collect (withColumn_id_plus_1 df) → y.2 ∈ collect df.
Proof.
  unfold withColumn_id_plus_1. rewrite !elem_of_collect.
  intros (part' & Hy & (p & part & -> & Hp)%elem_of_lookup_imap).
  apply elem_of_lookup_imap in Hy as (r & x & -> & Hr).
  exists part. split; [by eapply list_elem_of_lookup_2|by eapply list_elem_of_lookup_2].
Qed.

(** Each songplays row pairs a "NextSong" record with a songs row of the
    title the record names. *)
Lemma elem_of_songplays_table input (df_songs : list (list (@SongsRow float))) row :
  row ∈ collect (songplays_table to_timestamp input df_songs) →
  ∃ r s title,
    r ∈ collect input ∧ log_page r = Some "NextSong" ∧ s ∈ collect df_songs ∧
    log_song r = Some title ∧ songs_title s = Some title ∧
    row = songplays_columns
            (sp_songplay_id row, (withColumn_start_time to_timestamp r, s)).
Proof.
  unfold songplays_table, joined_df, log_df.
  rewrite collect_select.
  intros ([id [e s]] & -> & Hy%elem_of_withColumn_id_plus_1)%list_elem_of_fmap.
  apply elem_of_join in Hy as (He & Hs & (title & Hsong & Htitle)%sql_eqb_true).
  cbn [fst snd] in *. rewrite collect_select, collect_where in He.
  apply list_elem_of_fmap in He as (r & -> & [Hpage Hr]%list_elem_of_filter).
  by exists r, s, title.
Qed.

(** A record no songs row matches adds nothing to the joined frame. *)
Lemma joined_df_unmatched (before after : list (list (@LogData float)))
  (p1 p2 : list (@LogData float)) r (df_songs : list (list (@SongsRow float))) :
  (∀ s title, s ∈ collect df_songs → log_song r = Some title →
              songs_title s ≠ Some title) →
  joined_df to_timestamp (before ++ (p1 ++ r :: p2) :: after) df_songs
  = joined_df to_timestamp (before ++ (p1 ++ p2) :: after) df_songs.
Proof.
  intros Hnone. unfold joined_df, log_df.
  destruct (decide (log_page r = Some "NextSong")) as [Hpage|Hpage];
    [|by rewrite (where_rejected _ before after p1 p2 r)].
  unfold join, select, where_.
  rewrite !fmap_app, !fmap_cons. do 2 f_equal.
  rewrite !filter_app, filter_cons_True by done.
  rewrite !fmap_app, fmap_cons, !bind_app, bind_cons. f_equal.
  match goal with |- ?matches ++ _ = _ => assert (matches = []) as -> end; [|done].
  apply elem_of_nil_inv. intros x (s & -> & [Hc Hs]%list_elem_of_filter)%list_elem_of_fmap.
  apply Is_true_true, sql_eqb_true in Hc as (title & Hsong & Htitle).
  by eapply Hnone.
Qed.

(** C1, amended. Each songplays row carries the song_id of a songs row whose
    title is the song of the "NextSong" record the row was made from (a null
    song_id when that songs row has none, and never null when every songs
    row has one); and a record whose song is the title of no songs row adds
    no row: the table is the one a run without the record leaves. *)
Theorem songplays_song_id_from_songs input songs w w' :
  fs w !! "songs" = Some (TSongs songs) →
  process_log_data to_timestamp input w = (Ok (), w') →
  ∃ rows,
    fs w' !! "songplays" = Some (TSongplays rows) ∧
    (∀ row, row ∈ rows →
       ∃ r s title,
         r ∈ collect input ∧ log_page r = Some "NextSong" ∧ s ∈ songs ∧
         log_song r = Some title ∧ songs_title s = Some title ∧
         sp_song_id row = songs_song_id s ∧
         row = songplays_columns
                 (sp_songplay_id row, (withColumn_start_time to_timestamp r, s))) ∧
    ((∀ s, s ∈ songs → is_Some (songs_song_id s)) →
     ∀ row, row ∈ rows → is_Some (sp_song_id row)) ∧
    (∀ before p1 r p2 after,
       input = before ++ (p1 ++ r :: p2) :: after →
       (∀ s title, s ∈ songs → log_song r = Some title →
                   songs_title s ≠ Some title) →
       rows = collect (songplays_table to_timestamp
                         (before ++ (p1 ++ p2) :: after) [songs])).
Proof.
  intros Hsongs (songs' & Hsongs' & ->)%process_log_data_Ok.
  rewrite Hsongs in Hsongs'. injection Hsongs' as <-.
  eexists. split; [by lookup_tables|].
  assert (Hrow : ∀ row,
    row ∈ collect (songplays_table to_timestamp input [songs]) →
    ∃ r s title,
      r ∈ collect input ∧ log_page r = Some "NextSong" ∧ s ∈ songs ∧
      log_song r = Some title ∧ songs_title s = Some title ∧
      sp_song_id row = songs_song_id s ∧
      row = songplays_columns
              (sp_songplay_id row, (withColumn_start_time to_timestamp r, s))).
  { intros row (r & s & title & Hr & Hpage & Hs & Hsong & Htitle & Hrow)%elem_of_songplays_table.
    rewrite collect_cons, app_nil_r in Hs.
    exists r, s, title. repeat split; try done. by rewrite Hrow. }
  split; [done|]. split.
  - intros Hid row (r & s & title & _ & _ & Hs & _ & _ & -> & _)%Hrow. by apply Hid.
  - intros before p1 r p2 after -> Hnone. unfold songplays_table.
    rewrite joined_df_unmatched; [done|].
    intros s title Hs. rewrite collect_cons, app_nil_r in Hs. by apply Hnone.
Qed.


(** *** The songplay ids *)

(** Spells the powers of two out for [lia]. *)
Ltac powers_of_two :=
  change (2 ^ 30) with 1073741824 in *;
  change (2 ^ 33) with 8589934592 in *;
  change (2 ^ 63) with 9223372036854775808 in *;
  change (2 ^ 64) with 18446744073709551616 in *.

Lemma wrap64_small z : - 2 ^ 63 ≤ z < 2 ^ 63 → wrap64 z = z.
Proof. intros Hz. unfold wrap64. powers_of_two. rewrite Z.mod_small; lia. Qed.

(** Below 2^30 partitions and 2^33 - 1 records nothing wraps. *)
Lemma songplay_id_exact (p r : nat) :
  Z.of_nat p < 2 ^ 30 → Z.of_nat r < 2 ^ 33 - 1 →
  wrap64 (monotonically_increasing_id p r + 1)
  = Z.of_nat p * 2 ^ 33 + Z.of_nat r + 1.
Proof.
  intros Hp Hr. unfold monotonically_increasing_id.
  rewrite Z.shiftl_mul_pow2 by lia.
  assert (Hsmall : - 2 ^ 63 ≤ Z.of_nat p * 2 ^ 33 + Z.of_nat r
                   ∧ Z.of_nat p * 2 ^ 33 + Z.of_nat r + 1 < 2 ^ 63)
    by (powers_of_two; lia).
  rewrite (wrap64_small (Z.of_nat p * 2 ^ 33 + Z.of_nat r)) by lia.
  apply wrap64_small. lia.
Qed.

Lemma withColumn_id_plus_1_ids {A} (df : list (list A)) :
  Z.of_nat (length df) ≤ 2 ^ 30 →
  Forall (λ part, Z.of_nat (length part) < 2 ^ 33) df →
  fst <$> collect (withColumn_id_plus_1 df) = ids_from 0 df.
Proof.
  unfold withColumn_id_plus_1.
  assert (Hgen : ∀ k,
    Z.of_nat (k + length df) ≤ 2 ^ 30 →
    Forall (λ part, Z.of_nat (length part) < 2 ^ 33) df →
    fst <$> collect (imap (λ p part,
      imap (λ r (x : A), (wrap64 (monotonically_increasing_id (k + p) r + 1), x)) part) df)
    = ids_from k df); [|by apply (Hgen 0%nat)].
  induction df as [|part df IH]; intros k Hk Hparts; [done|].
  apply Forall_cons in Hparts as [Hpart Hparts]. cbn [length] in Hk.
  rewrite imap_cons, collect_cons, fmap_app. cbn [ids_from]. f_equal.
  - rewrite fmap_imap, Nat.add_0_r.
    rewrite (imap_ext _ (λ r _, Z.of_nat k * 2 ^ 33 + Z.of_nat r + 1)).
    + apply imap_seq_0.
    + intros r x Hr%lookup_lt_Some. cbn. apply songplay_id_exact; lia.
  - rewrite <- IH by (done || lia). do 2 f_equal.
    apply imap_ext. intros p part' _. cbn. by rewrite Nat.add_succ_r.
Qed.

Lemma StronglySorted_seq (j n : nat) : StronglySorted lt (seq j n).
Proof.
  revert j. induction n as [|n IH]; intros j; cbn [seq]; constructor; [done|].
  apply Forall_forall. intros i [Hi _]%elem_of_seq. lia.
Qed.

Lemma ids_from_sorted {A} (df : list (list A)) k :
  Forall (λ part, Z.of_nat (length part) < 2 ^ 33) df →
  StronglySorted Z.lt (ids_from k df) ∧
  Forall (λ id, Z.of_nat k * 2 ^ 33 < id) (ids_from k df).
Proof.
  revert k. induction df as [|part df IH]; intros k Hparts; cbn [ids_from].
  { split; constructor. }
  apply Forall_cons in Hparts as [Hpart Hparts].
  destruct (IH (S k) Hparts) as [Hsorted Hlow]. split.
  - apply StronglySorted_app_2; [| |done].
    + intros id1 id2 (r & -> & [_ Hr]%elem_of_seq)%list_elem_of_fmap Hid2.
      rewrite Forall_forall in Hlow. apply Hlow in Hid2. lia.
    + apply (StronglySorted_fmap _ lt); [intros; lia|].
      apply StronglySorted_seq.
  - apply Forall_app. split.
    + apply Forall_fmap, Forall_forall. intros r _. cbn. lia.
    + eapply Forall_impl; [done|]. intros id. cbn. lia.
Qed.

Lemma StronglySorted_lt_NoDup (ids : list Z) :
  StronglySorted Z.lt ids → NoDup ids.
Proof.
  induction 1 as [|id ids _ IH Hlt]; constructor; [|done].
  rewrite Forall_forall in Hlt. intros Hin%Hlt. lia.
Qed.

(** The first id is that of the first partition that holds a row. *)
Lemma head_ids_from {A} (empties : list (list A)) part parts k :
  Forall (λ p, p = []) empties → part ≠ [] →
  head (ids_from k (empties ++ part :: parts))
  = Some (Z.of_nat (k + length empties) * 2 ^ 33 + 1).
Proof.
  revert k. induction empties as [|e empties IH]; intros k Hempty Hpart.
  - destruct part; [done|]. cbn. do 2 f_equal. lia.
  - apply Forall_cons in Hempty as [-> Hempty]. cbn [app ids_from length seq fmap].
    rewrite fmap_nil, app_nil_l, IH by done. do 2 f_equal. lia.
Qed.


(** C2, amended. Whatever partitions the engine lays the joined rows in,
    at most 2^30 of them with fewer than 2^33 rows each, the songplay ids of
    the rows made of them are strictly increasing in write order, hence
    pairwise distinct; the first one is 1 plus 2^33 times the number of
    empty partitions before the first joined row, so it is 1 exactly when
    the first partition of the joined frame holds a row. *)
Theorem songplay_ids_over_partitions
  (df : list (list (@Event float * @SongsRow float))) :
  Z.of_nat (length df) ≤ 2 ^ 30 →
  Forall (λ part, Z.of_nat (length part) < 2 ^ 33) df →
  let rows := collect (select songplays_columns (withColumn_id_plus_1 df)) in
  StronglySorted Z.lt (sp_songplay_id <$> rows) ∧
  NoDup (sp_songplay_id <$> rows) ∧
  (∀ empties part parts,
     df = empties ++ part :: parts →
     Forall (λ p, p = []) empties → part ≠ [] →
     head (sp_songplay_id <$> rows)
     = Some (Z.of_nat (length empties) * 2 ^ 33 + 1)) ∧
  (head (sp_songplay_id <$> rows) = Some 1 ↔ ∃ row part parts, df = (row :: part) :: parts).
Proof.
  intros Hparts Hrows rows.
  assert (Hids : sp_songplay_id <$> rows = ids_from 0 df).
  { subst rows. rewrite <- (withColumn_id_plus_1_ids df) by done.
    rewrite collect_select, <- list_fmap_compose.
    apply list_fmap_ext. by intros _ [id [e s]] _. }
  rewrite Hids.
  destruct (ids_from_sorted df 0 Hrows) as [Hsorted Hlow].
  split; [done|]. split; [by apply StronglySorted_lt_NoDup|]. split.
  { intros empties part parts -> Hempty Hpart. by rewrite head_ids_from. }
  split.
  - destruct df as [|[|row part] parts]; [done| |by eauto].
    intros Hhead. exfalso. cbn [ids_from] in Hhead.
    change (head (ids_from 1 parts) = Some 1) in Hhead.
    apply Forall_cons in Hrows as [_ Hrows].
    destruct (ids_from_sorted parts 1 Hrows) as [_ Hlow1].
    destruct (ids_from 1 parts) as [|id ids]; [done|].
    injection Hhead as ->. apply Forall_cons in Hlow1 as [Hid _].
    revert Hid. powers_of_two. lia.
  - intros (row & part & parts & ->). done.
Qed.

End EtlFacts.


(** *** The sample runs *)

Section SampleRuns.

Import Sample.

(** Membership in a list that is written out. *)
Ltac in_list H :=
  repeat (apply elem_of_cons in H as [->|H]); [..|by apply elem_of_nil in H].

(** C1 as stated fails: a catalog record without a song_id (PERMISSIVE mode
    reads it with a null) gives a songplays row whose song_id is null. *)
Lemma songplays_song_id_null :
  ∃ row,
    main to_timestamp [[fix_you_without_id]] [[play]] fresh
    = (Ok (), (main to_timestamp [[fix_you_without_id]] [[play]] fresh).2) ∧
    fs (main to_timestamp [[fix_you_without_id]] [[play]] fresh).2 !! "songplays"
    = Some (TSongplays [row]) ∧
    sp_song_id row = None.
Proof. eexists. split; [by vm_compute|]. split; by vm_compute. Qed.

Lemma songplays_song_id_from_songs_witness :
  let input := [[play; play_unknown]] in
  let w' := (process_log_data to_timestamp input with_songs).2 in
  fs with_songs !! "songs" = Some (TSongs [songs_columns fix_you]) ∧
  process_log_data to_timestamp input with_songs = (Ok (), w') ∧
  ∃ rows,
    fs w' !! "songplays" = Some (TSongplays rows) ∧
    (∀ row, row ∈ rows →
       ∃ r s title,
         r ∈ collect input ∧ log_page r = Some "NextSong" ∧
         s ∈ [songs_columns fix_you] ∧
         log_song r = Some title ∧ songs_title s = Some title ∧
         sp_song_id row = songs_song_id s ∧
         row = songplays_columns
                 (sp_songplay_id row, (withColumn_start_time to_timestamp r, s))) ∧
    ((∀ s, s ∈ [songs_columns fix_you] → is_Some (songs_song_id s)) →
     ∀ row, row ∈ rows → is_Some (sp_song_id row)) ∧
    (∀ before p1 r p2 after,
       input = before ++ (p1 ++ r :: p2) :: after →
       (∀ s title, s ∈ [songs_columns fix_you] → log_song r = Some title →
                   songs_title s ≠ Some title) →
       rows = collect (songplays_table to_timestamp
                         (before ++ (p1 ++ p2) :: after) [[songs_columns fix_you]])).
Proof.
  intros input w'.
  split; [by vm_compute|]. split; [by vm_compute|].
  apply (songplays_song_id_from_songs to_timestamp input
           [songs_columns fix_you] with_songs w'); by vm_compute.
Defined.


(** C2 as stated fails.  The log comes in two files, 1000 "Home" records
    in the first and the play of the scenario in the second, and the catalog
    holds the one song: the log is the larger side of the join, so the engine
    broadcasts the songs and streams the log, partition by partition.  The
    first partition leaves no joined row, and the one songplay id is
    2^33 + 1. *)
Lemma songplay_id_not_from_1_on_large_log :
  let log_data := [replicate 1000 home; [play]] in
  let run := main to_timestamp [[fix_you]] log_data fresh in
  run.1 = Ok () ∧
  joined_df to_timestamp log_data [[songs_columns fix_you]]
  = [[]; [(withColumn_start_time to_timestamp play, songs_columns fix_you)]] ∧
  ∃ rows,
    fs run.2 !! "songplays" = Some (TSongplays rows) ∧
    sp_songplay_id <$> rows = [8589934593] ∧
    head (sp_songplay_id <$> rows) ≠ Some 1.
Proof.
  intros log_data run.
  split; [by vm_compute|]. split; [by vm_compute|].
  eexists. split; [by vm_compute|]. by vm_compute.
Qed.

(** A joined frame of four partitions, the first and the third empty. *)
Lemma songplay_ids_over_partitions_witness :
  let row := (withColumn_start_time to_timestamp play, songs_columns fix_you) in
  let df := [[]; [row; row]; []; [row]] in
  let rows := collect (select songplays_columns (withColumn_id_plus_1 df)) in
  Z.of_nat (length df) ≤ 2 ^ 30 ∧
  Forall (λ part, Z.of_nat (length part) < 2 ^ 33) df ∧
  StronglySorted Z.lt (sp_songplay_id <$> rows) ∧
  NoDup (sp_songplay_id <$> rows) ∧
  (∀ empties part parts,
     df = empties ++ part :: parts →
     Forall (λ p, p = []) empties → part ≠ [] →
     head (sp_songplay_id <$> rows)
     = Some (Z.of_nat (length empties) * 2 ^ 33 + 1)) ∧
  (head (sp_songplay_id <$> rows) = Some 1 ↔ ∃ row part parts, df = (row :: part) :: parts) ∧
  sp_songplay_id <$> rows = [8589934593; 8589934594; 25769803777].
Proof.
  intros row df rows.
  assert (Hparts : Z.of_nat (length df) ≤ 2 ^ 30) by (by vm_compute).
  assert (Hrows : Forall (λ part, Z.of_nat (length part) < 2 ^ 33) df)
    by (repeat (constructor; [reflexivity|]); constructor).
  split; [done|]. split; [done|].
  destruct (songplay_ids_over_partitions df Hparts Hrows) as (Hsorted & Hnodup & Hhead & Hone).
  split; [done|]. split; [done|]. split; [done|]. split; [done|]. by vm_compute.
Defined.

(** The milliseconds of ts are dropped before the text of the instant is
    made, so the plays at 1542242870796 ms and at 1542242870000 ms get one
    and the same start_time, whatever the parser does with that text. *)
Lemma start_time_drops_milliseconds :
  ts_div_1000 "1542242870796" = Some (1542242870796 # 1000) ∧
  cast_long (1542242870796 # 1000) = 1542242870 ∧
  from_unixtime 1542242870 = "2018-11-15 00:47:50" ∧
  (∀ parser : string → string → option Z,
     start_time parser play = start_time parser play_on_the_second).
Proof.
  split; [by vm_compute|]. split; [by vm_compute|]. split; [by vm_compute|].
  intros parser. by vm_compute.
Qed.

(** C3. The code at the scenario of the specification: ts 1542242870796 is
    divided by 1000 and cut to the second 1542242870, whose text is
    2018-11-15 00:47:50; the pattern of the job spells the year with the
    week-year letters YYYY, under which the text parses to the first day of
    week 1 of the week year 2018, so start_time is 2017-12-31 00:47:50 and
    the time row is of hour 0, day 31, week 52, month 12 of 2017.  Under
    the calendar-year letters yyyy the same text parses to the second it was
    made of. *)
Theorem scenario_start_time_in_week_year :
  from_unixtime (cast_long (1542242870796 # 1000)) = "2018-11-15 00:47:50" ∧
  start_time to_timestamp_emr_5_30_0 play = Some (1514681270 * micros_per_second) ∧
  from_unixtime 1514681270 = "2017-12-31 00:47:50" ∧
  start_time to_timestamp_emr_5_30_0 play ≠ Some (1542242870 * micros_per_second) ∧
  fs (main to_timestamp_emr_5_30_0 [[fix_you]] [[play]] fresh).2 !! "time"
  = Some (TTime [ {| time_start_time := Some (1514681270 * micros_per_second);
                     time_hour := Some 0;
                     time_day := Some 31;
                     time_week := Some 52;
                     time_month := Some 12;
                     time_year := Some 2017;
                     time_weekday := Some 1 |} ]) ∧
  to_timestamp_emr_5_30_0 "2018-11-15 00:47:50" "yyyy-MM-dd HH:mm:ss"
  = Some (1542242870 * micros_per_second).
Proof. repeat split; by vm_compute. Qed.

(** C4 as stated fails: two "NextSong" records of user 26 at level free that
    differ in the first name give two users rows with the same pair. *)
Lemma users_share_user_id_and_level :
  ∃ u1 u2,
    fs (process_log_data to_timestamp [[play; play_as_bob]] with_songs).2 !! "users"
    = Some (TUsers [u1; u2]) ∧
    u1 ≠ u2 ∧
    (users_user_id u1, users_level u1) = (users_user_id u2, users_level u2).
Proof. eexists _, _. split; [by vm_compute|]. split; by vm_compute. Qed.

Lemma users_unique_by_user_id_and_level_witness :
  let input := [[home]; [play; play_unknown]] in
  let rows := [users_columns play] in
  (∀ r1 r2, r1 ∈ collect input → r2 ∈ collect input →
     log_page r1 = Some "NextSong" → log_page r2 = Some "NextSong" →
     log_userId r1 = log_userId r2 → log_level r1 = log_level r2 →
     log_firstName r1 = log_firstName r2 ∧ log_lastName r1 = log_lastName r2 ∧
     log_gender r1 = log_gender r2) ∧
  fs (process_log_data to_timestamp input with_songs).2 !! "users" = Some (TUsers rows) ∧
  NoDup ((λ u, (users_user_id u, users_level u)) <$> rows).
Proof.
  intros input rows.
  assert (Hsame : ∀ r1 r2, r1 ∈ collect input → r2 ∈ collect input →
     log_page r1 = Some "NextSong" → log_page r2 = Some "NextSong" →
     log_userId r1 = log_userId r2 → log_level r1 = log_level r2 →
     log_firstName r1 = log_firstName r2 ∧ log_lastName r1 = log_lastName r2 ∧
     log_gender r1 = log_gender r2).
  { intros r1 r2 Hr1 Hr2 _ _ _ _. vm_compute in Hr1, Hr2.
    in_list Hr1; in_list Hr2; by vm_compute. }
  assert (Hrows : fs (process_log_data to_timestamp input with_songs).2 !! "users"
                  = Some (TUsers rows)) by (by vm_compute).
  split; [done|]. split; [done|].
  exact (users_unique_by_user_id_and_level to_timestamp input with_songs rows Hsame Hrows).
Defined.


Lemma other_pages_leave_no_row_witness :
  let with_r := process_log_data to_timestamp [[play]; [play_unknown; home]] with_songs in
  let without_r := process_log_data to_timestamp [[play]; [play_unknown]] with_songs in
  log_page home ≠ Some "NextSong" ∧
  (fs with_r.2 !! "songplays" = fs without_r.2 !! "songplays" ∧
   fs with_r.2 !! "time" = fs without_r.2 !! "time") ∧
  is_Some (fs with_r.2 !! "songplays") ∧ is_Some (fs with_r.2 !! "time").
Proof.
  intros with_r without_r.
  assert (Hpage : log_page home ≠ Some "NextSong") by (by vm_compute).
  split; [done|]. split.
  - exact (other_pages_leave_no_row to_timestamp [[play]] [] [play_unknown] [] home
             with_songs Hpage).
  - split; eexists; vm_compute; reflexivity.
Defined.

Lemma dimension_tables_have_no_duplicate_rows_witness :
  let song_data := [[fix_you; fix_you]; [fix_you_without_id]] in
  let log_data := [[home; play]; [play; play_as_bob; play_unknown]] in
  let w' := (main to_timestamp song_data log_data fresh).2 in
  main to_timestamp song_data log_data fresh = (Ok (), w') ∧
  ∃ songs artists users time,
    fs w' !! "songs" = Some (TSongs songs) ∧ NoDup songs ∧
    fs w' !! "artists" = Some (TArtists artists) ∧ NoDup artists ∧
    fs w' !! "users" = Some (TUsers users) ∧ NoDup users ∧
    fs w' !! "time" = Some (TTime time) ∧ NoDup time.
Proof.
  intros song_data log_data w'.
  assert (Hrun : main to_timestamp song_data log_data fresh = (Ok (), w'))
    by (by vm_compute).
  split; [done|].
  exact (dimension_tables_have_no_duplicate_rows to_timestamp song_data log_data
           fresh w' Hrun).
Defined.

Lemma rerun_leaves_same_tables_witness :
  let song_data := [[fix_you]] in
  let log_data := [[home]; [play; play_unknown]] in
  let w1 := (main to_timestamp song_data log_data fresh).2 in
  let w2 := (main to_timestamp song_data log_data w1).2 in
  main to_timestamp song_data log_data fresh = (Ok (), w1) ∧
  main to_timestamp song_data log_data w1 = (Ok (), w2) ∧
  Forall (λ table, is_Some (fs w1 !! table) ∧ fs w2 !! table = fs w1 !! table) tables.
Proof.
  intros song_data log_data w1 w2.
  assert (Hrun1 : main to_timestamp song_data log_data fresh = (Ok (), w1))
    by (by vm_compute).
  assert (Hrun2 : main to_timestamp song_data log_data w1 = (Ok (), w2))
    by (by vm_compute).
  split; [done|]. split; [done|].
  exact (rerun_leaves_same_tables to_timestamp song_data log_data fresh w1 w1 w2
           Hrun1 eq_refl Hrun2).
Defined.

(** A run in an empty directory: the read back of the songs directory
    raises, and the users and time tables are there all the same. *)
Lemma users_and_time_written_before_songplays_witness :
  let input := [[home]; [play]] in
  let run := process_log_data to_timestamp input fresh in
  Forall (λ b, b = false) (take 2 (faults fresh)) ∧
  run.1 = Raise (AnalysisException "songs") ∧
  fs run.2 !! "users" = Some (TUsers (collect (users_table input))) ∧
  fs run.2 !! "time" = Some (TTime (collect (time_table to_timestamp input))) ∧
  fs run.2 !! "songplays" = None.
Proof.
  intros input run.
  assert (Hfaults : Forall (λ b, b = false) (take 2 (faults fresh))) by constructor.
  split; [done|]. split; [by vm_compute|].
  destruct (users_and_time_written_before_songplays to_timestamp input fresh Hfaults)
    as (Husers & Htime & _).
  split; [done|]. split; [done|]. by vm_compute.
Defined.


(** The scenario of the specification, run from an empty directory: the
    start_time of the row is 2017-12-31 00:47:50. *)
Example scenario_songplays_row :
  fs (main to_timestamp [[fix_you]] [[play]] fresh).2 !! "songplays"
  = Some (TSongplays
      [ {| sp_songplay_id := 1;
           sp_start_time := Some (1514681270 * micros_per_second);
           sp_user_id := Some "26";
           sp_level := Some "free";
           sp_song_id := Some "SOXYZ123";
           sp_artist_id := Some "ARXYZ456";
           sp_session_id := Some 100;
           sp_location := Some "San Jose-Sunnyvale-Santa Clara, CA";
           sp_user_agent := Some "Mozilla/5.0" |} ]).
Proof. by vm_compute. Qed.

(** Two catalog records with one song_id and two durations both stay in
    the songs table. *)
Example scenario_same_song_id_twice :
  let longer := {| sd_artist_id := sd_artist_id fix_you;
                   sd_artist_latitude := None;
                   sd_artist_location := sd_artist_location fix_you;
                   sd_artist_longitude := None;
                   sd_artist_name := sd_artist_name fix_you;
                   sd_duration := Some 296;
                   sd_num_songs := sd_num_songs fix_you;
                   sd_song_id := sd_song_id fix_you;
                   sd_title := sd_title fix_you;
                   sd_year := sd_year fix_you |} in
  length (collect (songs_table [[fix_you; longer; fix_you]])) = 2%nat.
Proof. by vm_compute. Qed.

End SampleRuns.

(** ** run.py *)

Section RunFacts.

Import Run.

Implicit Types (w : World) (files : list string).

(** One turn of the upload loop on a file the bucket takes. *)
Lemma upload_loop_taken file_name files bucket response w :
  s3_refuses w file_name = None →
  upload_loop (file_name :: files) bucket response w
  = upload_loop files bucket (Some ())
      {| stdout := stdout w ++ ["UPLOADING " +:+ file_name +:+ "..."; "DONE!"];
         objects := objects w ++ [(file_name, bucket, file_name)];
         job_flows := job_flows w; s3_refuses := s3_refuses w;
         emr_answers := emr_answers w |}.
Proof.
  intros Hs3. cbn [upload_loop].
  cbv [mbind M_bind bind mret M_ret ret try_except print s3_upload_file].
  cbn [stdout objects job_flows s3_refuses emr_answers]. rewrite Hs3.
  cbn [stdout objects job_flows s3_refuses emr_answers].
  by rewrite <- app_assoc.
Qed.

(** One turn on a file the bucket refuses with a ClientError: the error is
    printed, [response] stays as it was, and the loop goes on. *)
Lemma upload_loop_refused file_name files bucket response w msg :
  s3_refuses w file_name = Some (ClientError msg) →
  upload_loop (file_name :: files) bucket response w
  = upload_loop files bucket response
      {| stdout := stdout w ++ ["UPLOADING " +:+ file_name +:+ "..."; msg];
         objects := objects w;
         job_flows := job_flows w; s3_refuses := s3_refuses w;
         emr_answers := emr_answers w |}.
Proof.
  intros Hs3. cbn [upload_loop].
  cbv [mbind M_bind bind mret M_ret ret try_except print s3_upload_file].
  cbn [stdout objects job_flows s3_refuses emr_answers]. rewrite Hs3.
  cbn [is_ClientError str stdout objects job_flows s3_refuses emr_answers].
  by rewrite <- app_assoc.
Qed.

(** When the bucket refuses every file, the loop still ends normally, with
    [response] as it was, nothing put, and nothing asked of EMR. *)
Lemma upload_loop_all_refused files bucket response w :
  Forall (λ file_name, ∃ msg, s3_refuses w file_name = Some (ClientError msg)) files →
  ∃ w', upload_loop files bucket response w = (Ok response, w') ∧
        objects w' = objects w ∧ job_flows w' = job_flows w ∧
        s3_refuses w' = s3_refuses w ∧ emr_answers w' = emr_answers w.
Proof.
  revert w. induction files as [|file_name files IH]; intros w Hall.
  - by exists w.
  - apply Forall_cons in Hall as [[msg Hmsg] Hall].
    rewrite (upload_loop_refused _ _ _ _ _ msg) by done.
    destruct (IH {| stdout := stdout w ++ ["UPLOADING " +:+ file_name +:+ "..."; msg];
                    objects := objects w; job_flows := job_flows w;
                    s3_refuses := s3_refuses w; emr_answers := emr_answers w |})
      as (w' & Hrun & Hrest); [done|].
    by exists w'.
Qed.

(** Then [upload_files] reads [response] unbound and raises, and [main]
    never reaches the creation of the cluster. *)
Lemma main_all_refused config w :
  Forall (λ file_name, ∃ msg, s3_refuses w file_name = Some (ClientError msg)) files →
  ∃ w', main config w = (Raise (UnboundLocalError "response"), w') ∧
        objects w' = objects w ∧ job_flows w' = job_flows w.
Proof.
  intros Hall.
  destruct (upload_loop_all_refused files (s3_bucket config) None w Hall)
    as (w' & Hloop & Hobjects & Hflows & _).
  exists w'. split; [|done].
  unfold main, upload_files. cbv [mbind M_bind].
  by rewrite (bind_run_Raise _ _ _ (UnboundLocalError "response") w')
    by (by rewrite (bind_run_Ok _ _ _ _ _ Hloop)).
Qed.

(** When the bucket refuses the script and takes the configuration file,
    [response] is bound by the second turn and [upload_files] returns. *)
Lemma upload_files_last_taken bucket w msg :
  s3_refuses w "etl.py" = Some (ClientError msg) →
  s3_refuses w "dl.cfg" = None →
  upload_files files bucket w
  = (Ok (),
     {| stdout := stdout w ++ ["UPLOADING etl.py..."; msg;
                               "UPLOADING dl.cfg..."; "DONE!"];
        objects := objects w ++ [("dl.cfg", bucket, "dl.cfg")];
        job_flows := job_flows w; s3_refuses := s3_refuses w;
        emr_answers := emr_answers w |}).
Proof.
  intros Hfirst Hsecond. unfold upload_files, files. cbv [mbind M_bind].
  assert (upload_loop ["etl.py"; "dl.cfg"] bucket None w
          = (Ok (Some ()),
             {| stdout := stdout w ++ ["UPLOADING etl.py..."; msg;
                                       "UPLOADING dl.cfg..."; "DONE!"];
                objects := objects w ++ [("dl.cfg", bucket, "dl.cfg")];
                job_flows := job_flows w; s3_refuses := s3_refuses w;
                emr_answers := emr_answers w |})) as Hloop.
  { rewrite (upload_loop_refused _ _ _ _ _ msg) by done.
    rewrite upload_loop_taken by done.
    cbn [upload_loop stdout objects job_flows s3_refuses emr_answers].
    by rewrite <- app_assoc. }
  by rewrite (bind_run_Ok _ _ _ _ _ Hloop).
Qed.

(** The launch then goes on to ask for the cluster. *)
Lemma main_last_upload_taken config w msg :
  s3_refuses w "etl.py" = Some (ClientError msg) →
  s3_refuses w "dl.cfg" = None →
  job_flows (main config w).2 = job_flows w ++ [job_flow config].
Proof.
  intros Hfirst Hsecond. unfold main. cbv [mbind M_bind].
  rewrite (bind_run_Ok _ _ _ _ _ (upload_files_last_taken _ _ msg Hfirst Hsecond)).
  cbv [bind mret M_ret ret create_emr_cluster print emr_run_job_flow mbind M_bind].
  cbn [stdout objects job_flows s3_refuses emr_answers].
  by destruct (emr_answers w).
Qed.

(** C9 on the code: with both uploads refused, each refusal is caught and
    printed and the second file is still tried, but [upload_files] then
    raises UnboundLocalError and the cluster is never asked for. *)
Theorem launch_stops_when_every_upload_is_refused :
  let w := Sample.launcher (λ _, Some Sample.access_denied) in
  main Sample.config w
  = (Raise (UnboundLocalError "response"),
     {| stdout := ["UPLOADING etl.py..."; str Sample.access_denied;
                   "UPLOADING dl.cfg..."; str Sample.access_denied];
        objects := [];
        job_flows := [];
        s3_refuses := s3_refuses w;
        emr_answers := emr_answers w |}).
Proof. reflexivity. Qed.

End RunFacts.

(** * Further properties *)

(** ** etl.py *)

Section EtlFurther.

Context {float : Type} `{EqDecision float}.
Variable to_timestamp : string → string → option Z.
Implicit Types (w : @World float) (input : list (list (@LogData float))).
Implicit Types (song_data : list (list (@SongData float))).
Implicit Types (songs : list (@SongsRow float)).

(** *** The catalog transformer *)

Lemma elem_of_dropDuplicates_select {A B} `{EqDecision B} (f : A → B)
  (df : list (list A)) x :
  x ∈ collect (dropDuplicates (select f df)) ↔ ∃ r, r ∈ collect df ∧ x = f r.
Proof.
  rewrite elem_of_dropDuplicates, collect_select, list_elem_of_fmap.
  split; intros (r & ? & ?); by exists r.
Qed.

(** X1. After a run of the catalog transformer that returns, the songs table
    holds exactly the five projected columns of the catalog records, and the
    artists table exactly their five artist columns: no record is lost, none
    is invented. *)
Theorem songs_and_artists_hold_the_projections song_data w w' :
  process_song_data song_data w = (Ok (), w') →
  ∃ songs artists,
    fs w' !! "songs" = Some (TSongs songs) ∧
    fs w' !! "artists" = Some (TArtists artists) ∧
    (∀ x, x ∈ songs ↔ ∃ r, r ∈ collect song_data ∧ x = songs_columns r) ∧
    (∀ x, x ∈ artists ↔ ∃ r, r ∈ collect song_data ∧ x = artists_columns r).
Proof.
  intros ->%process_song_data_Ok. eexists _, _.
  split; [by lookup_tables|]. split; [by lookup_tables|].
  unfold songs_table, artists_table.
  split; intros x; apply elem_of_dropDuplicates_select.
Qed.

(** X2. The catalog transformer touches no directory but songs and artists,
    whether it returns or raises. *)
Theorem process_song_data_keeps_other_tables song_data w name :
  name ≠ "songs" → name ≠ "artists" →
  fs (process_song_data song_data w).2 !! name = fs w !! name.
Proof.
  intros Hsongs Hartists. destruct w as [f l fl]. run_job. repeat next_fault.
  all: repeat first [ rewrite lookup_insert_ne by congruence
                    | rewrite lookup_delete_ne by congruence ]; done.
Qed.

(** X3. When the write of songs succeeds and the write of artists fails, the
    transformer raises, the songs table stays written (nothing is rolled
    back) and the artists directory is left removed. *)
Theorem artists_write_failure_keeps_songs song_data w rest :
  faults w = false :: true :: rest →
  process_song_data song_data w =
    (Raise (Py4JJavaError "artists"),
     {| fs := delete "artists"
                (<["songs" := TSongs (collect (songs_table song_data))]> (fs w));
        log := log w ++
          [INFO "PROCESSING song_data..."; INFO "CREATING songs...";
           INFO "CREATING artists..."];
        faults := rest |}).
Proof.
  destruct w as [f l fl]. cbn [fs log faults]. intros ->. run_job.
  by rewrite <- !app_assoc.
Qed.


(** *** The event transformer *)

(** X4. The event transformer touches no directory but users, time and
    songplays, whether it returns or raises: the songs table it joins with
    is left as it found it. *)
Theorem process_log_data_keeps_other_tables input w name :
  name ≠ "users" → name ≠ "time" → name ≠ "songplays" →
  fs (process_log_data to_timestamp input w).2 !! name = fs w !! name.
Proof.
  intros Husers Htime Hsongplays. destruct w as [f l fl]. run_job.
  repeat next_fault.
  all: repeat first [ rewrite lookup_insert_ne by congruence
                    | rewrite lookup_delete_ne by congruence ]; done.
Qed.

(** X5. Run where no songs directory exists (the catalog transformer has
    not run), the event transformer writes users and time, then raises at
    the read back: the songplays directory is left as it was, stale or
    absent, and nothing is logged about songplays. *)
Theorem songs_missing_raises input w :
  fs w !! "songs" = None →
  Forall (λ b, b = false) (take 3 (faults w)) →
  let run := process_log_data to_timestamp input w in
  run.1 = Raise (AnalysisException "songs") ∧
  fs run.2 !! "songplays" = fs w !! "songplays" ∧
  log run.2 = log w ++ [INFO "PROCESSING log_data..."; INFO "CREATING users...";
                        INFO "CREATING time..."].
Proof.
  destruct w as [f l fl]. intros Hsongs Hfl run. subst run.
  cbn [fs faults] in Hsongs, Hfl. revert Hfl. run_job. repeat next_fault.
  all: cbn [take]; rewrite ?Forall_cons, ?Forall_nil.
  all: try (by intros Hfl; exfalso; intuition discriminate).
  all: try match goal with
           | Hs : _ !! "songs" = Some _ |- _ =>
               exfalso; revert Hs; lookup_tables; congruence
           end.
  all: intros _; lookup_tables; by rewrite <- !app_assoc.
Qed.

(** X6. The users table a run leaves holds exactly the five projected
    columns of the "NextSong" records. *)
Theorem users_table_holds_the_projections input w rows :
  fs (process_log_data to_timestamp input w).2 !! "users" = Some (TUsers rows) →
  ∀ u, u ∈ rows ↔
       ∃ r, r ∈ collect input ∧ log_page r = Some "NextSong" ∧ u = users_columns r.
Proof. intros ->%process_log_data_users u. apply elem_of_users_table. Qed.

(** The other columns of a time row are made from its start_time. *)
Lemma time_columns_start_time (e1 e2 : @Event float) :
  ev_start_time e1 = ev_start_time e2 → time_columns e1 = time_columns e2.
Proof. unfold time_columns. by intros ->. Qed.

(** X7. The time table a run leaves has one row for each start_time of a
    "NextSong" record, the null one included: no two rows share a
    start_time, and a start_time is in the table exactly when a "NextSong"
    record has it. *)
Theorem time_table_unique_by_start_time input w rows :
  fs (process_log_data to_timestamp input w).2 !! "time" = Some (TTime rows) →
  head (faults w) ≠ Some true →
  NoDup (time_start_time <$> rows) ∧
  ∀ t, t ∈ time_start_time <$> rows ↔
       ∃ r, r ∈ collect input ∧ log_page r = Some "NextSong" ∧
            start_time to_timestamp r = t.
Proof.
  intros Hrows Hfault. apply process_log_data_time in Hrows as ->; [|done].
  assert (Hrow : ∀ row, row ∈ collect (time_table to_timestamp input) ↔
            ∃ r, r ∈ collect input ∧ log_page r = Some "NextSong" ∧
                 row = time_columns (withColumn_start_time to_timestamp r)).
  { intros row. unfold time_table, log_df.
    rewrite elem_of_dropDuplicates_select, collect_select, collect_where. split.
    - intros (e & (r & -> & [Hpage Hr]%list_elem_of_filter)%list_elem_of_fmap & ->).
      by exists r.
    - intros (r & Hr & Hpage & ->). eexists. split; [|done].
      apply list_elem_of_fmap. exists r. split; [done|].
      by apply list_elem_of_filter. }
  split.
  - apply NoDup_fmap_2_strong; [|apply NoDup_dropDuplicates].
    intros x y (r1 & _ & _ & ->)%Hrow (r2 & _ & _ & ->)%Hrow.
    apply time_columns_start_time.
  - intros t. rewrite list_elem_of_fmap. split.
    + intros (row & -> & (r & Hr & Hpage & ->)%Hrow). by exists r.
    + intros (r & Hr & Hpage & <-). eexists. split; [|apply Hrow; by exists r].
      done.
Qed.

(** X8. When no record of the log has the page "NextSong", a run that
    returns leaves users, time and songplays in place and empty. *)
Theorem no_NextSong_leaves_empty_tables input w w' :
  (∀ r, r ∈ collect input → log_page r ≠ Some "NextSong") →
  process_log_data to_timestamp input w = (Ok (), w') →
  fs w' !! "users" = Some (TUsers []) ∧
  fs w' !! "time" = Some (TTime []) ∧
  fs w' !! "songplays" = Some (TSongplays []).
Proof.
  intros Hnone (songs & _ & ->)%process_log_data_Ok.
  assert (collect (users_table input) = []) as ->.
  { apply elem_of_nil_inv. intros u (r & Hr & Hpage & _)%elem_of_users_table.
    by apply (Hnone r). }
  assert (collect (time_table to_timestamp input) = []) as ->.
  { apply elem_of_nil_inv. intros row (r & Hr & Hpage & _)%time_rows_from_NextSong.
    by apply (Hnone r). }
  assert (collect (songplays_table to_timestamp input [songs]) = []) as ->.
  { apply elem_of_nil_inv.
    intros row (r & s & title & Hr & Hpage & _)%elem_of_songplays_table.
    by apply (Hnone r). }
  repeat split; by lookup_tables.
Qed.


(** *** The rows of songplays *)

Lemma length_collect_imap {A B} (F : nat → list A → list B) (df : list (list A)) :
  (∀ p part, length (F p part) = length part) →
  length (collect (imap F df)) = length (collect df).
Proof.
  revert F. induction df as [|part df IH]; intros F HF; [done|].
  rewrite imap_cons, !collect_cons, !length_app, HF. f_equal.
  apply IH. intros p part'. apply HF.
Qed.

Lemma length_collect_select {A B} (f : A → B) (df : list (list A)) :
  length (collect (select f df)) = length (collect df).
Proof. by rewrite collect_select, length_fmap. Qed.

Lemma length_collect_join {A B} (cond : A → B → bool) (left : list (list A))
  (right : list (list B)) :
  length (collect (join cond left right))
  = sum_list_with (λ l, length (filter (λ r, cond l r) (collect right)))
                  (collect left).
Proof.
  unfold join. induction left as [|part left IH]; [done|].
  rewrite fmap_cons, !collect_cons, length_app, sum_list_with_app, IH.
  f_equal. clear IH. induction part as [|l part IH]; [done|].
  rewrite bind_cons, length_app, length_fmap. cbn [sum_list_with].
  by rewrite IH.
Qed.

Lemma sum_list_with_fmap {A B} (f : B → nat) (g : A → B) (l : list A) :
  sum_list_with f (g <$> l) = sum_list_with (f ∘ g) l.
Proof. induction l as [|x l IH]; [done|]. cbn. by rewrite IH. Qed.

(** X9. The join is on the title alone and nothing is deduplicated after
    it: a run that returns leaves as many songplays rows as there are pairs
    of a "NextSong" record and a songs row of the title the record names, so
    a title held by several songs rows multiplies the plays of it. *)
Theorem songplays_row_count input songs w w' :
  fs w !! "songs" = Some (TSongs songs) →
  process_log_data to_timestamp input w = (Ok (), w') →
  ∃ rows,
    fs w' !! "songplays" = Some (TSongplays rows) ∧
    length rows
    = sum_list_with
        (λ r, length (filter (λ s, sql_eqb (log_song r) (songs_title s)) songs))
        (filter (λ r, log_page r = Some "NextSong") (collect input)).
Proof.
  intros Hsongs (songs' & Hsongs' & ->)%process_log_data_Ok.
  rewrite Hsongs in Hsongs'. injection Hsongs' as <-.
  eexists. split; [by lookup_tables|].
  unfold songplays_table, withColumn_id_plus_1.
  rewrite length_collect_select, length_collect_imap
    by (intros; apply length_imap).
  unfold joined_df. rewrite length_collect_join, collect_cons, app_nil_r.
  unfold log_df. by rewrite collect_select, collect_where, sum_list_with_fmap.
Qed.

(** X10. When the joined frame comes in one partition of fewer than 2^33
    rows, the songplay ids of the rows made of it are 1, 2, 3, ... without a
    gap, in write order. *)
Theorem songplay_ids_without_gap_in_one_partition
  (part : list (@Event float * @SongsRow float)) :
  Z.of_nat (length part) < 2 ^ 33 →
  let rows := collect (select songplays_columns (withColumn_id_plus_1 [part])) in
  length rows = length part ∧
  sp_songplay_id <$> rows = (λ r : nat, Z.of_nat r + 1) <$> seq 0 (length part).
Proof.
  intros Hrows rows. subst rows. split.
  - unfold withColumn_id_plus_1.
    rewrite length_collect_select, length_collect_imap by (intros; apply length_imap).
    by rewrite collect_cons, app_nil_r.
  - rewrite collect_select, <- list_fmap_compose.
    rewrite (list_fmap_ext (sp_songplay_id ∘ songplays_columns) fst _)
      by (by intros _ [id [e s]] _).
    rewrite withColumn_id_plus_1_ids.
    + cbn [ids_from]. rewrite app_nil_r. apply list_fmap_ext. intros _ r _. cbn. lia.
    + by vm_compute.
    + by repeat constructor.
Qed.


(** *** The orchestrator *)

(** X11. With no fault ahead, a catalog that holds a record and a log that
    holds a "NextSong" record, a full run returns from any directory, empty
    or stale: songs, artists, users and time are the tables of this run's
    input, songplays holds one row for each pair of a "NextSong" record and a
    row of the songs table this run wrote (not the one it found) of the
    title the record names, and the log ends with the five row counts.
    (A directory written with [partitionBy] from a frame without a row holds
    no data file, and its read back counts among the faults.) *)
Theorem main_runs_on_nonempty_input song_data log_data w :
  faults w = [] →
  collect song_data ≠ [] →
  (∃ r, r ∈ collect log_data ∧ log_page r = Some "NextSong") →
  let songs := collect (songs_table song_data) in
  let artists := collect (artists_table song_data) in
  let users := collect (users_table log_data) in
  let time := collect (time_table to_timestamp log_data) in
  let pairs :=
    sum_list_with
      (λ r, length (filter (λ s, sql_eqb (log_song r) (songs_title s)) songs))
      (filter (λ r, log_page r = Some "NextSong") (collect log_data)) in
  let run := main to_timestamp song_data log_data w in
  run.1 = Ok () ∧
  fs run.2 !! "songs" = Some (TSongs songs) ∧
  fs run.2 !! "artists" = Some (TArtists artists) ∧
  fs run.2 !! "users" = Some (TUsers users) ∧
  fs run.2 !! "time" = Some (TTime time) ∧
  (∃ rows, fs run.2 !! "songplays" = Some (TSongplays rows) ∧ length rows = pairs) ∧
  log run.2 = log w ++
    [INFO "INITIALIZING SparkSession...";
     INFO "PROCESSING song_data..."; INFO "CREATING songs...";
     INFO "CREATING artists..."; INFO "PROCESSED song_data.";
     INFO "PROCESSING log_data..."; INFO "CREATING users...";
     INFO "CREATING time..."; INFO "CREATING songplays...";
     INFO "PROCESSED log_data.";
     INFO ("songs: ROWS = " +:+ pretty (length songs));
     INFO ("artists: ROWS = " +:+ pretty (length artists));
     INFO ("users: ROWS = " +:+ pretty (length users));
     INFO ("time: ROWS = " +:+ pretty (length time));
     INFO ("songplays: ROWS = " +:+ pretty pairs)].
Proof.
  destruct w as [f l fl]. intros Hfl _ _ songs artists users time pairs run.
  cbn [fs log faults] in *. subst fl.
  assert (Hpairs : length (collect (songplays_table to_timestamp log_data [songs]))
                   = pairs).
  { unfold songplays_table, withColumn_id_plus_1.
    rewrite length_collect_select, length_collect_imap
      by (intros; apply length_imap).
    unfold joined_df. rewrite length_collect_join, collect_cons, app_nil_r.
    unfold log_df. by rewrite collect_select, collect_where, sum_list_with_fmap. }
  assert (Hrun : run =
    (Ok (),
     {| fs := <["songplays" :=
                  TSongplays (collect (songplays_table to_timestamp log_data [songs]))]>
                (<["time" := TTime time]>
                   (<["users" := TUsers users]>
                      (<["artists" := TArtists artists]>
                         (<["songs" := TSongs songs]> f))));
        log := l ++
          [INFO "INITIALIZING SparkSession...";
           INFO "PROCESSING song_data..."; INFO "CREATING songs...";
           INFO "CREATING artists..."; INFO "PROCESSED song_data.";
           INFO "PROCESSING log_data..."; INFO "CREATING users...";
           INFO "CREATING time..."; INFO "CREATING songplays...";
           INFO "PROCESSED log_data.";
           INFO ("songs: ROWS = " +:+ pretty (length songs));
           INFO ("artists: ROWS = " +:+ pretty (length artists));
           INFO ("users: ROWS = " +:+ pretty (length users));
           INFO ("time: ROWS = " +:+ pretty (length time));
           INFO ("songplays: ROWS = " +:+ pretty pairs)];
        faults := [] |})).
  { rewrite <- Hpairs. subst run songs artists users time.
    unfold main, tables, count_rows, try_except, Exception. cbn [for_each].
    run_job. repeat (lookup_tables; cbn [fs log faults tail row_count]).
    by rewrite <- !app_assoc. }
  rewrite Hrun. cbn [fst snd fs log].
  split; [done|]. repeat (split; [by lookup_tables|]).
  split; [|done]. eexists. split; [by lookup_tables|done].
Qed.

(** X12. A failed write of songs is fatal to the whole job: [main] raises
    at once, the event transformer and the counting loop never run, and
    users, time and songplays stay as they were. *)
Theorem songs_write_failure_aborts_main song_data log_data w rest :
  faults w = true :: rest →
  main to_timestamp song_data log_data w =
    (Raise (Py4JJavaError "songs"),
     {| fs := delete "songs" (fs w);
        log := log w ++
          [INFO "INITIALIZING SparkSession...";
           INFO "PROCESSING song_data..."; INFO "CREATING songs..."];
        faults := rest |}).
Proof.
  destruct w as [f l fl]. cbn [fs log faults]. intros ->.
  unfold main. run_job. by rewrite <- !app_assoc.
Qed.

End EtlFurther.

(** ** run.py *)

Section RunFurther.

Import Run.

Implicit Types (w : World) (files : list string).

(** The upload loop when each file is either taken or refused with a
    ClientError: it ends normally, [response] is bound as soon as one file
    was taken, and the files taken, and only they, are put under their own
    names. *)
Lemma upload_loop_spec (s3 : string → option exn) files bucket response w :
  s3_refuses w = s3 →
  Forall (λ f, s3 f = None ∨ ∃ msg, s3 f = Some (ClientError msg)) files →
  ∃ w',
    upload_loop files bucket response w
    = (Ok (if decide (Exists (λ f, s3 f = None) files) then Some () else response), w') ∧
    objects w' = objects w ++ ((λ f, (f, bucket, f)) <$> filter (λ f, s3 f = None) files) ∧
    job_flows w' = job_flows w ∧ s3_refuses w' = s3 ∧ emr_answers w' = emr_answers w.
Proof.
  revert response w. induction files as [|file_name files IH]; intros response w Hs3 Hall.
  - exists w. rewrite decide_False by (by intros ?%Exists_nil).
    cbn. by rewrite app_nil_r.
  - apply Forall_cons in Hall as [[Htaken|[msg Hmsg]] Hall].
    + rewrite upload_loop_taken by (by rewrite Hs3).
      match goal with
      | |- context [upload_loop files bucket _ ?w1] =>
          destruct (IH (Some ()) w1) as (w' & Hrun & Hobjects & Hflows & Hs3' & Hemr);
            [done|done|]
      end.
      exists w'. cbn [objects job_flows emr_answers] in *.
      rewrite filter_cons_True, fmap_cons, Hobjects by done.
      split; [|by rewrite <- app_assoc].
      rewrite Hrun, (decide_True (P := Exists _ (_ :: _))) by (by left).
      by case_decide.
    + rewrite (upload_loop_refused _ _ _ _ _ msg) by (by rewrite Hs3).
      match goal with
      | |- context [upload_loop files bucket _ ?w1] =>
          destruct (IH response w1) as (w' & Hrun & Hobjects & Hflows & Hs3' & Hemr);
            [done|done|]
      end.
      exists w'. cbn [objects job_flows emr_answers] in *.
      rewrite filter_cons_False by (by rewrite Hmsg).
      split; [|done]. rewrite Hrun. do 2 f_equal.
      apply decide_ext. rewrite Exists_cons, Hmsg. split; [by right|].
      by intros [?|?].
Qed.

(** X13. When S3 either takes a file or refuses it with a ClientError,
    [upload_files] puts exactly the files taken, each under its own name,
    asks nothing of EMR, returns as soon as one file was taken, and raises
    UnboundLocalError when none was (with an empty list of files too). *)
Theorem upload_files_returns_iff_an_upload_is_taken files bucket w :
  Forall (λ f, s3_refuses w f = None ∨ ∃ msg, s3_refuses w f = Some (ClientError msg))
         files →
  let run := upload_files files bucket w in
  objects run.2
  = objects w ++ ((λ f, (f, bucket, f)) <$> filter (λ f, s3_refuses w f = None) files) ∧
  job_flows run.2 = job_flows w ∧
  (run.1 = Ok () ↔ ∃ f, f ∈ files ∧ s3_refuses w f = None) ∧
  (run.1 = Raise (UnboundLocalError "response")
   ↔ ∀ f, f ∈ files → s3_refuses w f ≠ None).
Proof.
  intros Hall run. subst run.
  destruct (upload_loop_spec (s3_refuses w) files bucket None w eq_refl Hall)
    as (w' & Hloop & Hobjects & Hflows & _).
  unfold upload_files. cbv [mbind M_bind].
  rewrite (bind_run_Ok _ _ _ _ _ Hloop).
  case_decide as Hsome; cbn [fst snd].
  - split; [done|]. split; [done|]. apply Exists_exists in Hsome. split.
    + split; [done|]. by intros _.
    + split; [done|]. intros Hnone. destruct Hsome as (f & Hf & Htaken).
      by destruct (Hnone f Hf).
  - split; [done|]. split; [done|]. rewrite Exists_exists in Hsome. split.
    + split; [done|]. intros Htaken. by destruct Hsome.
    + split; [|done]. intros _ f Hf Htaken. apply Hsome. by exists f.
Qed.


(** X14. Only ClientError is caught: when [upload_file] raises anything
    else for a file, [upload_files] raises it at once; the files after it
    are not tried and nothing is put for it. *)
Theorem upload_stops_at_other_exception file_name files bucket w e :
  s3_refuses w file_name = Some e →
  is_ClientError e = false →
  upload_files (file_name :: files) bucket w
  = (Raise e,
     {| stdout := stdout w ++ ["UPLOADING " +:+ file_name +:+ "..."];
        objects := objects w; job_flows := job_flows w;
        s3_refuses := s3_refuses w; emr_answers := emr_answers w |}).
Proof.
  intros Hs3 He. unfold upload_files. cbn [upload_loop].
  cbv [mbind M_bind bind mret M_ret ret try_except print s3_upload_file].
  cbn [stdout objects job_flows s3_refuses emr_answers].
  by rewrite Hs3, He.
Qed.

(** Both files taken: the two objects are put and [upload_files] returns. *)
Lemma upload_files_both_taken bucket w :
  s3_refuses w "etl.py" = None →
  s3_refuses w "dl.cfg" = None →
  upload_files files bucket w
  = (Ok (),
     {| stdout := stdout w ++ ["UPLOADING etl.py..."; "DONE!";
                               "UPLOADING dl.cfg..."; "DONE!"];
        objects := objects w ++ [("etl.py", bucket, "etl.py"); ("dl.cfg", bucket, "dl.cfg")];
        job_flows := job_flows w; s3_refuses := s3_refuses w;
        emr_answers := emr_answers w |}).
Proof.
  intros Hfirst Hsecond. unfold upload_files, files. cbv [mbind M_bind].
  erewrite bind_run_Ok.
  2: { rewrite upload_loop_taken by done. rewrite upload_loop_taken by done.
       cbn [upload_loop stdout objects job_flows s3_refuses emr_answers].
       by rewrite <- !app_assoc. }
  done.
Qed.

(** X15. A failure of the cluster request is not caught: after both uploads
    [main] raises what [run_job_flow] raised, having sent the one request;
    the two objects stay in the bucket and "STARTED" is never printed. *)
Theorem cluster_failure_is_fatal config w e :
  s3_refuses w "etl.py" = None →
  s3_refuses w "dl.cfg" = None →
  emr_answers w = Raise e →
  main config w
  = (Raise e,
     {| stdout := stdout w ++ ["UPLOADING etl.py..."; "DONE!";
                               "UPLOADING dl.cfg..."; "DONE!";
                               "CREATING emr cluster..."];
        objects := objects w ++ [("etl.py", s3_bucket config, "etl.py");
                                 ("dl.cfg", s3_bucket config, "dl.cfg")];
        job_flows := job_flows w ++ [job_flow config];
        s3_refuses := s3_refuses w; emr_answers := emr_answers w |}).
Proof.
  intros Hfirst Hsecond Hemr. unfold main. cbv [mbind M_bind].
  rewrite (bind_run_Ok _ _ _ _ _ (upload_files_both_taken _ _ Hfirst Hsecond)).
  cbv [bind mret M_ret ret create_emr_cluster print emr_run_job_flow mbind M_bind].
  cbn [stdout objects job_flows s3_refuses emr_answers]. rewrite Hemr.
  by rewrite <- !app_assoc.
Qed.

(** X16. When both uploads are taken and EMR answers, [main] returns having
    put the two objects and sent exactly one cluster request, and that
    request names each object put, as s3://bucket/key, among the arguments
    of its step: the cluster is pointed at what was uploaded. *)
Theorem launch_points_the_cluster_at_the_uploads config w arn :
  s3_refuses w "etl.py" = None →
  s3_refuses w "dl.cfg" = None →
  emr_answers w = Ok arn →
  let run := main config w in
  run.1 = Ok () ∧
  job_flows run.2 = job_flows w ++ [job_flow config] ∧
  ∃ uploads,
    objects run.2 = objects w ++ uploads ∧
    uploads.*1.*1 = files ∧
    Forall (λ '(file_name, bucket, key),
              "s3://" +:+ bucket +:+ "/" +:+ key ∈ step_arguments (job_flow config))
           uploads.
Proof.
  intros Hfirst Hsecond Hemr run. subst run. unfold main. cbv [mbind M_bind].
  rewrite (bind_run_Ok _ _ _ _ _ (upload_files_both_taken _ _ Hfirst Hsecond)).
  cbv [bind mret M_ret ret create_emr_cluster print emr_run_job_flow mbind M_bind].
  cbn [stdout objects job_flows s3_refuses emr_answers]. rewrite Hemr.
  cbn [fst snd objects job_flows]. split; [done|]. split; [done|].
  eexists. split; [done|]. split; [done|].
  repeat constructor; cbn [step_arguments job_flow jf_Steps step_Args mbind];
    cbv [step_arguments mbind list_bind]; cbn;
    unfold config_path, file_path, files; cbn;
    rewrite !elem_of_cons; auto 20.
Qed.

End RunFurther.

(** ** The sample runs, continued *)

Section SampleFurther.

Import Sample.

Lemma songs_and_artists_hold_the_projections_witness :
  let song_data := [[fix_you; fix_you_without_id]; [fix_you]] in
  let w' := (process_song_data song_data fresh).2 in
  process_song_data song_data fresh = (Ok (), w') ∧
  ∃ songs artists,
    fs w' !! "songs" = Some (TSongs songs) ∧
    fs w' !! "artists" = Some (TArtists artists) ∧
    (∀ x, x ∈ songs ↔ ∃ r, r ∈ collect song_data ∧ x = songs_columns r) ∧
    (∀ x, x ∈ artists ↔ ∃ r, r ∈ collect song_data ∧ x = artists_columns r).
Proof.
  intros song_data w'.
  assert (Hrun : process_song_data song_data fresh = (Ok (), w')) by (by vm_compute).
  split; [done|].
  exact (songs_and_artists_hold_the_projections song_data fresh w' Hrun).
Defined.

Lemma process_song_data_keeps_other_tables_witness :
  let w := (main to_timestamp [[fix_you]] [[play]] fresh).2 in
  "users" ≠ "songs" ∧ "users" ≠ "artists" ∧
  is_Some (fs w !! "users") ∧
  fs (process_song_data [[fix_you_without_id]] w).2 !! "users" = fs w !! "users".
Proof.
  intros w.
  assert (H1 : "users" ≠ "songs") by done.
  assert (H2 : "users" ≠ "artists") by done.
  split; [done|]. split; [done|]. split; [eexists; vm_compute; reflexivity|].
  exact (process_song_data_keeps_other_tables [[fix_you_without_id]] w "users" H1 H2).
Defined.

Lemma artists_write_failure_keeps_songs_witness :
  let w := {| fs := fs fresh; log := []; faults := [false; true] |} in
  faults w = [false; true] ∧
  (process_song_data [[fix_you]] w).1 = Raise (Py4JJavaError "artists") ∧
  fs (process_song_data [[fix_you]] w).2 !! "songs"
  = Some (TSongs [songs_columns fix_you]) ∧
  fs (process_song_data [[fix_you]] w).2 !! "artists" = None.
Proof.
  intros w.
  assert (Hfaults : faults w = [false; true]) by done.
  split; [done|].
  rewrite (artists_write_failure_keeps_songs [[fix_you]] w [] Hfaults).
  split; [done|]. split; by vm_compute.
Defined.

Lemma process_log_data_keeps_other_tables_witness :
  "songs" ≠ "users" ∧ "songs" ≠ "time" ∧ "songs" ≠ "songplays" ∧
  is_Some (fs with_songs !! "songs") ∧
  fs (process_log_data to_timestamp [[play]] with_songs).2 !! "songs"
  = fs with_songs !! "songs".
Proof.
  assert (H1 : "songs" ≠ "users") by done.
  assert (H2 : "songs" ≠ "time") by done.
  assert (H3 : "songs" ≠ "songplays") by done.
  split; [done|]. split; [done|]. split; [done|].
  split; [eexists; vm_compute; reflexivity|].
  exact (process_log_data_keeps_other_tables to_timestamp [[play]] with_songs "songs"
           H1 H2 H3).
Defined.

Lemma songs_missing_raises_witness :
  let run := process_log_data to_timestamp [[play]] fresh in
  fs fresh !! "songs" = None ∧
  Forall (λ b, b = false) (take 3 (faults fresh)) ∧
  run.1 = Raise (AnalysisException "songs") ∧
  fs run.2 !! "songplays" = fs fresh !! "songplays" ∧
  log run.2 = log fresh ++ [INFO "PROCESSING log_data..."; INFO "CREATING users...";
                            INFO "CREATING time..."].
Proof.
  intros run.
  assert (Hsongs : fs fresh !! "songs" = None) by done.
  assert (Hfaults : Forall (λ b, b = false) (take 3 (faults fresh))) by constructor.
  split; [done|]. split; [done|].
  exact (songs_missing_raises to_timestamp [[play]] fresh Hsongs Hfaults).
Defined.

Lemma users_table_holds_the_projections_witness :
  let input := [[home]; [play; play_as_bob]] in
  let rows := [users_columns play; users_columns play_as_bob] in
  fs (process_log_data to_timestamp input with_songs).2 !! "users" = Some (TUsers rows) ∧
  ∀ u, u ∈ rows ↔
       ∃ r, r ∈ collect input ∧ log_page r = Some "NextSong" ∧ u = users_columns r.
Proof.
  intros input rows.
  assert (Hrows : fs (process_log_data to_timestamp input with_songs).2 !! "users"
                  = Some (TUsers rows)) by (by vm_compute).
  split; [done|].
  exact (users_table_holds_the_projections to_timestamp input with_songs rows Hrows).
Defined.

Lemma time_table_unique_by_start_time_witness :
  let input := [[home]; [play; play_on_the_second; play_unknown]] in
  let rows := [time_columns (withColumn_start_time to_timestamp play);
               time_columns (withColumn_start_time to_timestamp play_unknown)] in
  fs (process_log_data to_timestamp input with_songs).2 !! "time" = Some (TTime rows) ∧
  head (faults with_songs) ≠ Some true ∧
  NoDup (time_start_time <$> rows) ∧
  ∀ t, t ∈ time_start_time <$> rows ↔
       ∃ r, r ∈ collect input ∧ log_page r = Some "NextSong" ∧
            start_time to_timestamp r = t.
Proof.
  intros input rows.
  assert (Hrows : fs (process_log_data to_timestamp input with_songs).2 !! "time"
                  = Some (TTime rows)) by (by vm_compute).
  assert (Hfault : head (faults with_songs) ≠ Some true) by done.
  split; [done|]. split; [done|].
  exact (time_table_unique_by_start_time to_timestamp input with_songs rows
           Hrows Hfault).
Defined.

Lemma no_NextSong_leaves_empty_tables_witness :
  let input := [[home]; []; [home]] in
  let w' := (process_log_data to_timestamp input with_songs).2 in
  (∀ r, r ∈ collect input → log_page r ≠ Some "NextSong") ∧
  process_log_data to_timestamp input with_songs = (Ok (), w') ∧
  fs w' !! "users" = Some (TUsers []) ∧
  fs w' !! "time" = Some (TTime []) ∧
  fs w' !! "songplays" = Some (TSongplays []).
Proof.
  intros input w'.
  assert (Hnone : ∀ r, r ∈ collect input → log_page r ≠ Some "NextSong").
  { intros r Hr. vm_compute in Hr.
    repeat (apply elem_of_cons in Hr as [->|Hr]); [done..|by apply elem_of_nil in Hr]. }
  assert (Hrun : process_log_data to_timestamp input with_songs = (Ok (), w'))
    by (by vm_compute).
  split; [done|]. split; [done|].
  exact (no_NextSong_leaves_empty_tables to_timestamp input with_songs w' Hnone Hrun).
Defined.


(** Two songs rows of one title: the play of it gives two songplays rows. *)
Lemma songplays_row_count_witness :
  let input := [[play; play_unknown]; [home; play_as_bob]] in
  let songs := [songs_columns fix_you; songs_columns fix_you_without_id] in
  let w := {| fs := {["songs" := TSongs songs]}; log := []; faults := [] |} in
  let w' := (process_log_data to_timestamp input w).2 in
  fs w !! "songs" = Some (TSongs songs) ∧
  process_log_data to_timestamp input w = (Ok (), w') ∧
  (∃ rows,
     fs w' !! "songplays" = Some (TSongplays rows) ∧
     length rows
     = sum_list_with
         (λ r, length (filter (λ s, sql_eqb (log_song r) (songs_title s)) songs))
         (filter (λ r, log_page r = Some "NextSong") (collect input))) ∧
  sum_list_with
    (λ r, length (filter (λ s, sql_eqb (log_song r) (songs_title s)) songs))
    (filter (λ r, log_page r = Some "NextSong") (collect input)) = 4%nat.
Proof.
  intros input songs w w'.
  assert (Hsongs : fs w !! "songs" = Some (TSongs songs)) by (by vm_compute).
  assert (Hrun : process_log_data to_timestamp input w = (Ok (), w')) by (by vm_compute).
  split; [done|]. split; [done|]. split; [|by vm_compute].
  exact (songplays_row_count to_timestamp input songs w w' Hsongs Hrun).
Defined.

Lemma songplay_ids_without_gap_in_one_partition_witness :
  let row := (withColumn_start_time to_timestamp play, songs_columns fix_you) in
  let part := [row; row; row] in
  let rows := collect (select songplays_columns (withColumn_id_plus_1 [part])) in
  Z.of_nat (length part) < 2 ^ 33 ∧
  (length rows = length part ∧
   sp_songplay_id <$> rows = (λ r : nat, Z.of_nat r + 1) <$> seq 0 (length part)) ∧
  sp_songplay_id <$> rows = [1; 2; 3].
Proof.
  intros row part rows.
  assert (Hrows : Z.of_nat (length part) < 2 ^ 33) by (by vm_compute).
  split; [done|]. split; [|by vm_compute].
  exact (songplay_ids_without_gap_in_one_partition part Hrows).
Defined.

Lemma main_runs_on_nonempty_input_witness :
  let stale := (main to_timestamp [[fix_you_without_id]] [[play_as_bob]] fresh).2 in
  let song_data := [[fix_you]] in
  let log_data := [[home]; [play]] in
  let run := main to_timestamp song_data log_data stale in
  faults stale = [] ∧
  collect song_data ≠ [] ∧
  (∃ r, r ∈ collect log_data ∧ log_page r = Some "NextSong") ∧
  run.1 = Ok () ∧
  fs run.2 !! "songs" = Some (TSongs [songs_columns fix_you]) ∧
  (∃ rows, fs run.2 !! "songplays" = Some (TSongplays rows) ∧ length rows = 1%nat) ∧
  drop (length (log stale) + 10) (log run.2)
  = [INFO "songs: ROWS = 1"; INFO "artists: ROWS = 1"; INFO "users: ROWS = 1";
     INFO "time: ROWS = 1"; INFO "songplays: ROWS = 1"].
Proof.
  intros stale song_data log_data run.
  assert (Hfaults : faults stale = []) by (by vm_compute).
  assert (Hsongs : collect song_data ≠ []) by (by vm_compute).
  assert (Hplay : ∃ r, r ∈ collect log_data ∧ log_page r = Some "NextSong").
  { exists play. split; [|done]. apply list_elem_of_further, list_elem_of_here. }
  split; [exact Hfaults|]. split; [exact Hsongs|]. split; [exact Hplay|].
  destruct (main_runs_on_nonempty_input to_timestamp song_data log_data stale
              Hfaults Hsongs Hplay) as (Hok & Hs & _ & _ & _ & Hsp & _).
  split; [exact Hok|].
  split; [etrans; [exact Hs|by vm_compute]|].
  split; [|vm_compute; reflexivity].
  destruct Hsp as (rows & Hrows & Hlen). exists rows. split; [exact Hrows|].
  etrans; [exact Hlen|vm_compute; reflexivity].
Defined.

Lemma songs_write_failure_aborts_main_witness :
  let w := (main to_timestamp [[fix_you]] [[play]] fresh).2 in
  let failing := {| fs := fs w; log := []; faults := [true] |} in
  let run := main to_timestamp [[fix_you_without_id]] [[play_as_bob]] failing in
  faults failing = [true] ∧
  run.1 = Raise (Py4JJavaError "songs") ∧
  fs run.2 !! "songs" = None ∧
  fs run.2 !! "users" = fs w !! "users" ∧
  fs run.2 !! "songplays" = fs w !! "songplays".
Proof.
  intros w failing run.
  assert (Hfaults : faults failing = [true]) by done.
  split; [done|]. subst run.
  rewrite (songs_write_failure_aborts_main to_timestamp [[fix_you_without_id]]
             [[play_as_bob]] failing [] Hfaults).
  split; [done|]. split; [by vm_compute|]. split; by vm_compute.
Defined.

(** The script is refused and the configuration file is taken. *)
Lemma upload_files_returns_iff_an_upload_is_taken_witness :
  let s3 := λ f, if decide (f = "etl.py") then Some access_denied else None in
  let w := launcher s3 in
  let run := Run.upload_files Run.files "sparkify" w in
  Forall (λ f, Run.s3_refuses w f = None
               ∨ ∃ msg, Run.s3_refuses w f = Some (Run.ClientError msg)) Run.files ∧
  Run.objects run.2
  = Run.objects w ++ ((λ f, (f, "sparkify", f))
                        <$> filter (λ f, Run.s3_refuses w f = None) Run.files) ∧
  Run.job_flows run.2 = Run.job_flows w ∧
  (run.1 = Ok () ↔ ∃ f, f ∈ Run.files ∧ Run.s3_refuses w f = None) ∧
  (run.1 = Raise (Run.UnboundLocalError "response")
   ↔ ∀ f, f ∈ Run.files → Run.s3_refuses w f ≠ None) ∧
  run.1 = Ok () ∧
  Run.objects run.2 = [("dl.cfg", "sparkify", "dl.cfg")].
Proof.
  intros s3 w run.
  assert (Hall : Forall (λ f, Run.s3_refuses w f = None
                   ∨ ∃ msg, Run.s3_refuses w f = Some (Run.ClientError msg)) Run.files).
  { apply Forall_cons_2; [right; by eexists|].
    apply Forall_cons_2; [by left|]. constructor. }
  split; [done|].
  destruct (upload_files_returns_iff_an_upload_is_taken Run.files "sparkify" w Hall)
    as (Hobjects & Hflows & Hok & Hraise).
  split; [done|]. split; [done|]. split; [done|]. split; [done|].
  split; by vm_compute.
Defined.

Lemma upload_stops_at_other_exception_witness :
  let e := Run.OtherError "Failed to upload etl.py to sparkify/etl.py" in
  let w := launcher (λ _, Some e) in
  Run.s3_refuses w "etl.py" = Some e ∧
  Run.is_ClientError e = false ∧
  Run.upload_files ["etl.py"; "dl.cfg"] "sparkify" w
  = (Raise e,
     {| Run.stdout := ["UPLOADING etl.py..."];
        Run.objects := []; Run.job_flows := [];
        Run.s3_refuses := Run.s3_refuses w; Run.emr_answers := Run.emr_answers w |}).
Proof.
  intros e w.
  assert (Hs3 : Run.s3_refuses w "etl.py" = Some e) by done.
  assert (He : Run.is_ClientError e = false) by done.
  split; [done|]. split; [done|].
  exact (upload_stops_at_other_exception "etl.py" ["dl.cfg"] "sparkify" w e Hs3 He).
Defined.

Lemma cluster_failure_is_fatal_witness :
  let e := Run.ClientError "An error occurred (ValidationException)" in
  let w := {| Run.stdout := []; Run.objects := []; Run.job_flows := [];
              Run.s3_refuses := λ _, None; Run.emr_answers := Raise e |} in
  Run.s3_refuses w "etl.py" = None ∧
  Run.s3_refuses w "dl.cfg" = None ∧
  Run.emr_answers w = Raise e ∧
  (Run.main config w).1 = Raise e ∧
  Run.objects (Run.main config w).2
  = [("etl.py", "sparkify", "etl.py"); ("dl.cfg", "sparkify", "dl.cfg")] ∧
  Run.job_flows (Run.main config w).2 = [Run.job_flow config].
Proof.
  intros e w.
  assert (H1 : Run.s3_refuses w "etl.py" = None) by done.
  assert (H2 : Run.s3_refuses w "dl.cfg" = None) by done.
  assert (H3 : Run.emr_answers w = Raise e) by done.
  split; [done|]. split; [done|]. split; [done|].
  rewrite (cluster_failure_is_fatal config w e H1 H2 H3).
  split; [done|]. split; done.
Defined.

Lemma launch_points_the_cluster_at_the_uploads_witness :
  let w := launcher (λ _, None) in
  let arn := Some "arn:aws:elasticmapreduce:us-west-2:1:cluster/j-1" in
  let run := Run.main config w in
  Run.s3_refuses w "etl.py" = None ∧
  Run.s3_refuses w "dl.cfg" = None ∧
  Run.emr_answers w = Ok arn ∧
  run.1 = Ok () ∧
  Run.job_flows run.2 = Run.job_flows w ++ [Run.job_flow config] ∧
  ∃ uploads,
    Run.objects run.2 = Run.objects w ++ uploads ∧
    uploads.*1.*1 = Run.files ∧
    Forall (λ '(file_name, bucket, key),
              "s3://" +:+ bucket +:+ "/" +:+ key
              ∈ Run.step_arguments (Run.job_flow config))
           uploads.
Proof.
  intros w arn run.
  assert (H1 : Run.s3_refuses w "etl.py" = None) by done.
  assert (H2 : Run.s3_refuses w "dl.cfg" = None) by done.
  assert (H3 : Run.emr_answers w = Ok arn) by done.
  split; [done|]. split; [done|]. split; [done|].
  exact (launch_points_the_cluster_at_the_uploads config w arn H1 H2 H3).
Defined.

End SampleFurther.
